(** * qdrant-http-mcp: tool dispatch pipeline and session table

    A shallow embedding of [src/server.js] and [src/embeddings.js].

    The two external collaborators (the FastEmbed model and the Qdrant
    client), [crypto.randomUUID], the clock and [JSON.stringify] are
    parameters of the development.  Every handler is an [async] function
    whose [await]s are sequential, so a handler is a function from the
    world before the call to its result and the world after it; every
    collaborator call and every console line is appended to a trace.

    JavaScript numbers are idealised: a [limit] is an integer ([Z]) and a
    weight is a rational ([Q]). *)

From Stdlib Require Import ZArith QArith.
From stdpp Require Import base gmap strings list pretty.

Local Close Scope Q_scope.
Local Open Scope string_scope.
Local Open Scope list_scope.

(** ** JavaScript values *)

#[warnings="-register-all"]
Inductive jsval : Type :=
| VUndefined
| VNull
| VBool (b : bool)
| VNum (q : Q)
| VStr (s : string)
| VArr (elems : list jsval)
| VObj (fields : list (string * jsval)).

(** What a [catch] clause receives; the handlers only read [error.message]. *)
Record Error : Type := mkError { message : string }.

Definition TypeError (msg : string) : Error := mkError msg.

(** JavaScript truthiness, as used by [if (x)], [!x] and [a || b]. *)
Definition truthy (v : jsval) : bool :=
  match v with
  | VUndefined | VNull => false
  | VBool b => b
  | VNum q => negb (Qeq_bool q 0)
  | VStr s => negb (String.eqb s "")
  | VArr _ | VObj _ => true
  end.

Definition truthy_string (s : option string) : bool :=
  match s with
  | Some s => negb (String.eqb s "")
  | None => false
  end.

Fixpoint own_prop (fields : list (string * jsval)) (k : string) : jsval :=
  match fields with
  | [] => VUndefined
  | (k', v) :: rest => if String.eqb k' k then v else own_prop rest k
  end.

(** [v.k] for the data keys the handlers read: it throws on [undefined]
    and [null], reads an own property of an object, and is [undefined] on
    every other value. *)
Definition get_prop (v : jsval) (k : string) : Error + jsval :=
  match v with
  | VUndefined =>
      inl (TypeError ("Cannot read properties of undefined (reading '" ++ k ++ "')"))
  | VNull =>
      inl (TypeError ("Cannot read properties of null (reading '" ++ k ++ "')"))
  | VObj fields => inr (own_prop fields k)
  | _ => inr VUndefined
  end.

Definition obj_keys (v : jsval) : option (list string) :=
  match v with
  | VObj fields => Some (fields.*1)
  | _ => None
  end.

(** [arr.slice(0, end)] for an integer [end]: a negative [end] counts from
    the end of the array. *)
Definition slice0 {A : Type} (l : list A) (e : Z) : list A :=
  if (e <? 0)%Z
  then take (Z.to_nat (Z.max (Z.of_nat (length l) + e) 0)) l
  else take (Z.to_nat (Z.min e (Z.of_nat (length l)))) l.

(** ** Data exchanged with the vector store *)

Record Payload : Type := mkPayload {
  pl_information : string;
  pl_metadata : jsval;
  pl_timestamp : string
}.

Record Point : Type := mkPoint {
  pt_id : string;
  pt_vector : jsval;
  pt_payload : Payload
}.

Record ScoredPoint : Type := mkScoredPoint {
  sp_id : jsval;
  sp_score : jsval;
  sp_payload : jsval
}.

Record ScoringParams : Type := mkScoringParams {
  vector_weight : Q;
  keyword_weight : Q
}.

(** The [searchParams] object; an absent key is [None]. *)
Record SearchParams : Type := mkSearchParams {
  q_vector : option jsval;
  q_limit : Z;
  q_filter : option jsval;
  q_with_payload : option bool;
  q_query_text : option string;
  q_score_threshold : option Q;
  q_params : option ScoringParams
}.

(** ** Collaborator calls and the trace *)

Inductive Call : Type :=
| FastEmbed_create (modelName : string)
| model_embed (texts : list string)
| qdrant_search (collection : string) (searchParams : SearchParams)
| qdrant_upsert (collection : string) (points : list Point)
| qdrant_getCollection (collection : string)
| qdrant_getCollections.

Inductive Event : Type :=
| EvCall (c : Call) (failure : option Error)
| EvLog (line : string)
| EvError (line : string) (e : Error).

Definition failure_of {A : Type} (r : Error + A) : option Error :=
  match r with
  | inl e => Some e
  | inr _ => None
  end.

(** ** Tool arguments, after schema validation *)

Record StoreArgs : Type := mkStoreArgs {
  st_information : string;
  st_metadata : option jsval
}.

Record FindArgs : Type := mkFindArgs {
  f_query : string;
  f_limit : option Z;
  f_filter : option jsval
}.

Record HybridArgs : Type := mkHybridArgs {
  h_query : string;
  h_vector_weight : option Q;
  h_keyword_weight : option Q;
  h_filters : option jsval;
  h_limit : option Z
}.

Record FilteredArgs : Type := mkFilteredArgs {
  fs_query : option string;
  fs_filters : jsval;
  fs_use_vector : option bool;
  fs_limit : option Z
}.

Record BatchItem : Type := mkBatchItem {
  bi_information : string;
  bi_metadata : option jsval;
  bi_id : option string
}.

Record BatchArgs : Type := mkBatchArgs {
  b_items : list BatchItem;
  b_collection_name : option string
}.

Record ToolResult : Type := mkToolResult {
  content : list string;   (* the [text] of each [{type: 'text', text}] item *)
  isError : bool
}.

Definition text_result (text : string) : ToolResult :=
  {| content := [text]; isError := false |}.

Definition error_result (text : string) : ToolResult :=
  {| content := [text]; isError := true |}.

(** [x !== undefined ? x : d], the default of a destructured parameter. *)
Definition default_to {A : Type} (d : A) (x : option A) : A :=
  match x with
  | Some a => a
  | None => d
  end.

Definition Qpositive (q : Q) : bool := negb (Qle_bool q 0).

(** ** The collaborators

    Everything the two source files import or read from the process: the
    FastEmbed model, the Qdrant client, [crypto], the clock, [JSON] and the
    environment. *)

Class Collaborators : Type := {
  (** The state of the vector store and the loaded embedding model. *)
  Store : Type;
  Model : Type;
  (** [FastEmbed.create] and [model.embed]. *)
  create_model : string -> Error + Model;
  embed_with : Model -> list string -> Error + list jsval;
  (** The Qdrant client: each call answers or throws, and leaves a store. *)
  store_search :
    Store -> string -> SearchParams -> (Error + list ScoredPoint) * Store;
  store_upsert : Store -> string -> list Point -> (Error + unit) * Store;
  store_getCollection : Store -> string -> (Error + jsval) * Store;
  store_getCollections : Store -> (Error + jsval) * Store;
  (** The [n]-th [crypto.randomUUID()] and the [n]-th
      [new Date().toISOString()] of the process. *)
  randomUUID : nat -> string;
  toISOString : nat -> string;
  JSON_stringify : jsval -> string;
  (** [process.env.COLLECTION_NAME]. *)
  env_COLLECTION_NAME : option string
}.

(** ** The pipeline *)

Section Pipeline.

Context `{Collaborators}.

Definition COLLECTION_NAME : string :=
  if truthy_string env_COLLECTION_NAME
  then default_to "" env_COLLECTION_NAME
  else "agent-ren3".

Record World : Type := mkWorld {
  store : Store;
  model : option Model;        (* [embeddingClient.model] *)
  initialized : bool;          (* [embeddingClient.initialized] *)
  uuid_draws : nat;
  clock_reads : nat;
  trace : list Event
}.

(** *** Sequential effects with exceptions *)

Definition M (A : Type) : Type := World -> (Error + A) * World.

Definition ret {A : Type} (a : A) : M A := fun w => (inr a, w).

Definition throw {A : Type} (e : Error) : M A := fun w => (inl e, w).

Definition bind {A B : Type} (m : M A) (k : A -> M B) : M B :=
  fun w =>
    match m w with
    | (inl e, w') => (inl e, w')
    | (inr a, w') => k a w'
    end.

Definition try_catch {A : Type} (m : M A) (handler : Error -> M A) : M A :=
  fun w =>
    match m w with
    | (inl e, w') => handler e w'
    | (inr a, w') => (inr a, w')
    end.

Notation "x <- m ;; k" := (bind m (fun x => k))
  (at level 100, m at next level, right associativity).
Notation "m ;;; k" := (bind m (fun _ => k))
  (at level 100, right associativity).

Definition lift {A : Type} (r : Error + A) : M A := fun w => (r, w).

Definition emit (ev : Event) : M unit :=
  fun w =>
    (inr tt,
     mkWorld (store w) (model w) (initialized w) (uuid_draws w) (clock_reads w)
             (trace w ++ [ev])).

Definition console_log (line : string) : M unit := emit (EvLog line).

Definition console_error (line : string) (e : Error) : M unit :=
  emit (EvError line e).

Definition crypto_randomUUID : M string :=
  fun w =>
    (inr (randomUUID (uuid_draws w)),
     mkWorld (store w) (model w) (initialized w) (S (uuid_draws w))
             (clock_reads w) (trace w)).

Definition new_Date_toISOString : M string :=
  fun w =>
    (inr (toISOString (clock_reads w)),
     mkWorld (store w) (model w) (initialized w) (uuid_draws w)
             (S (clock_reads w)) (trace w)).

(** A call to the Qdrant client: the store moves on and the call, with its
    failure if any, is recorded. *)
Definition qdrant {A : Type} (c : Call) (op : Store -> (Error + A) * Store) : M A :=
  fun w =>
    let '(r, s') := op (store w) in
    (r,
     mkWorld s' (model w) (initialized w) (uuid_draws w) (clock_reads w)
             (trace w ++ [EvCall c (failure_of r)])).

Definition qdrantClient_search (collection : string) (p : SearchParams)
  : M (list ScoredPoint) :=
  qdrant (qdrant_search collection p) (fun s => store_search s collection p).

Definition qdrantClient_upsert (collection : string) (points : list Point)
  : M unit :=
  qdrant (qdrant_upsert collection points)
         (fun s => store_upsert s collection points).

Definition qdrantClient_getCollection (collection : string) : M jsval :=
  qdrant (qdrant_getCollection collection)
         (fun s => store_getCollection s collection).

Definition qdrantClient_getCollections : M jsval :=
  qdrant qdrant_getCollections store_getCollections.

(** *** embeddings.js: [FastEmbedClient] *)

Definition modelName : string := "sentence-transformers/all-MiniLM-L6-v2".

Definition FastEmbed_create_call : M Model :=
  fun w =>
    let r := create_model modelName in
    (r,
     mkWorld (store w) (model w) (initialized w) (uuid_draws w) (clock_reads w)
             (trace w ++ [EvCall (FastEmbed_create modelName) (failure_of r)])).

Definition set_model (m : Model) : M unit :=
  fun w =>
    (inr tt,
     mkWorld (store w) (Some m) (initialized w) (uuid_draws w) (clock_reads w)
             (trace w)).

Definition set_initialized : M unit :=
  fun w =>
    (inr tt,
     mkWorld (store w) (model w) true (uuid_draws w) (clock_reads w) (trace w)).

Definition init : M unit :=
  fun w =>
    if initialized w then (inr tt, w)
    else
      (console_log ("Initializing FastEmbed with model: " ++ modelName) ;;;
       m <- FastEmbed_create_call ;;
       set_model m ;;;
       set_initialized ;;;
       console_log "FastEmbed initialization complete") w.

(** [this.model.embed(texts)] *)
Definition this_model_embed (texts : list string) : M (list jsval) :=
  fun w =>
    match model w with
    | None =>
        (inl (TypeError "Cannot read properties of null (reading 'embed')"), w)
    | Some m =>
        let r := embed_with m texts in
        (r,
         mkWorld (store w) (model w) (initialized w) (uuid_draws w)
                 (clock_reads w)
                 (trace w ++ [EvCall (model_embed texts) (failure_of r)]))
    end.

Definition embed (text : string) : M jsval :=
  init ;;;
  try_catch
    (embeddings <- this_model_embed [text] ;;
     ret (default VUndefined (embeddings !! 0%nat)))
    (fun error =>
       console_error "Error generating embedding:" error ;;;
       throw error).

Definition embedBatch (texts : list string) : M (list jsval) :=
  init ;;;
  try_catch
    (this_model_embed texts)
    (fun error =>
       console_error "Error generating batch embeddings:" error ;;;
       throw error).

(** *** server.js: the tools *)

(** The [try { ... } catch (error) { ... }] that wraps every tool body. *)
Definition tool_try (body : M ToolResult) (what : string)
  : World -> ToolResult * World :=
  fun w =>
    match body w with
    | (inr r, w') => (r, w')
    | (inl error, w') =>
        (error_result ("Error " ++ what ++ ": " ++ message error),
         mkWorld (store w') (model w') (initialized w') (uuid_draws w')
                 (clock_reads w')
                 (trace w' ++ [EvError ("Error " ++ what ++ ":") error]))
    end.

(** [result => ({information: result.payload.information, ...})] *)
Definition format_result (result : ScoredPoint) : Error + jsval :=
  match get_prop (sp_payload result) "information" with
  | inl e => inl e
  | inr information =>
      match get_prop (sp_payload result) "metadata" with
      | inl e => inl e
      | inr metadata =>
          match get_prop (sp_payload result) "timestamp" with
          | inl e => inl e
          | inr timestamp =>
              inr (VObj [("information", information);
                         ("metadata", metadata);
                         ("score", sp_score result);
                         ("timestamp", timestamp)])
          end
      end
  end.

(** [results.map(format)]: the first element that throws ends the map. *)
Fixpoint format_results (results : list ScoredPoint) : Error + list jsval :=
  match results with
  | [] => inr []
  | result :: rest =>
      match format_result result with
      | inl e => inl e
      | inr v =>
          match format_results rest with
          | inl e => inl e
          | inr vs => inr (v :: vs)
          end
      end
  end.

(** [if (filter) searchParams.filter = filter] *)
Definition filter_if_truthy (filter : option jsval) : option jsval :=
  match filter with
  | Some f => if truthy f then Some f else None
  | None => None
  end.

Definition store_body (a : StoreArgs) : M ToolResult :=
  let information := st_information a in
  let metadata := default_to (VObj []) (st_metadata a) in
  embedding <- embed information ;;
  id <- crypto_randomUUID ;;
  timestamp <- new_Date_toISOString ;;
  qdrantClient_upsert COLLECTION_NAME
    [mkPoint id embedding (mkPayload information metadata timestamp)] ;;;
  ret (text_result
         (JSON_stringify (VObj [("success", VBool true); ("id", VStr id)]))).

Definition qdrant_store (a : StoreArgs) : World -> ToolResult * World :=
  tool_try (store_body a) "storing information".

Definition find_params (embedding : jsval) (a : FindArgs) : SearchParams :=
  {| q_vector := Some embedding;
     q_limit := default_to 5%Z (f_limit a);
     q_filter := filter_if_truthy (f_filter a);
     q_with_payload := None;
     q_query_text := None;
     q_score_threshold := None;
     q_params := None |}.

Definition find_items (a : FindArgs) : M (list jsval) :=
  embedding <- embed (f_query a) ;;
  results <- qdrantClient_search COLLECTION_NAME (find_params embedding a) ;;
  lift (format_results results).

Definition items_result (items : M (list jsval)) : M ToolResult :=
  formattedResults <- items ;;
  ret (text_result (JSON_stringify (VArr formattedResults))).

Definition qdrant_find (a : FindArgs) : World -> ToolResult * World :=
  tool_try (items_result (find_items a)) "searching information".

Definition hybrid_params (embedding : jsval) (a : HybridArgs) : SearchParams :=
  let vector_weight := default_to (7 # 10)%Q (h_vector_weight a) in
  let keyword_weight := default_to (3 # 10)%Q (h_keyword_weight a) in
  let limit := default_to 10%Z (h_limit a) in
  {| q_vector := Some embedding;
     q_limit := (limit * 2)%Z;
     q_filter := filter_if_truthy (h_filters a);
     q_with_payload := Some true;
     q_query_text :=
       if Qpositive keyword_weight then Some (h_query a) else None;
     q_score_threshold :=
       if Qpositive keyword_weight then Some 0%Q else None;
     q_params :=
       if Qpositive keyword_weight
       then Some (mkScoringParams vector_weight keyword_weight)
       else None |}.

Definition hybrid_items (a : HybridArgs) : M (list jsval) :=
  embedding <- embed (h_query a) ;;
  results <- qdrantClient_search COLLECTION_NAME (hybrid_params embedding a) ;;
  lift (format_results (slice0 results (default_to 10%Z (h_limit a)))).

Definition qdrant_hybrid_search (a : HybridArgs) : World -> ToolResult * World :=
  tool_try (items_result (hybrid_items a)) "performing hybrid search".

Definition filtered_params (vector : option jsval) (a : FilteredArgs)
  : SearchParams :=
  {| q_vector := vector;
     q_limit := default_to 10%Z (fs_limit a);
     q_filter := Some (fs_filters a);
     q_with_payload := Some true;
     q_query_text := None;
     q_score_threshold := None;
     q_params := None |}.

Definition filtered_items (a : FilteredArgs) : M (list jsval) :=
  vector <-
    (if default_to true (fs_use_vector a) && truthy_string (fs_query a)
     then embedding <- embed (default_to "" (fs_query a)) ;; ret (Some embedding)
     else ret None) ;;
  results <- qdrantClient_search COLLECTION_NAME (filtered_params vector a) ;;
  lift (format_results results).

Definition qdrant_filtered_search (a : FilteredArgs)
  : World -> ToolResult * World :=
  tool_try (items_result (filtered_items a)) "performing filtered search".

Definition collection_stats_body (collection_name : string) : M ToolResult :=
  stats <- qdrantClient_getCollection collection_name ;;
  ret (text_result (JSON_stringify stats)).

Definition qdrant_collection_stats (collection_name : string)
  : World -> ToolResult * World :=
  tool_try (collection_stats_body collection_name) "getting collection stats".

Definition list_collections_body : M ToolResult :=
  collections <- qdrantClient_getCollections ;;
  ret (text_result (JSON_stringify collections)).

Definition qdrant_list_collections : World -> ToolResult * World :=
  tool_try list_collections_body "listing collections".

(** [item.id || crypto.randomUUID()]: the right operand is evaluated only
    when the left one is falsy. *)
Definition id_or_randomUUID (id : option string) : M string :=
  if truthy_string id then ret (default_to "" id) else crypto_randomUUID.

(** [item.metadata || {}] *)
Definition metadata_or_empty (metadata : option jsval) : jsval :=
  match metadata with
  | Some m => if truthy m then m else VObj []
  | None => VObj []
  end.

(** [items.map((item, index) => ({id: ..., vector: embeddings[index], ...}))],
    from position [index] on. *)
Fixpoint batch_points (items : list BatchItem) (embeddings : list jsval)
    (index : nat) : M (list Point) :=
  match items with
  | [] => ret []
  | item :: rest =>
      id <- id_or_randomUUID (bi_id item) ;;
      timestamp <- new_Date_toISOString ;;
      points <- batch_points rest embeddings (S index) ;;
      ret (mkPoint id (default VUndefined (embeddings !! index))
             (mkPayload (bi_information item)
                (metadata_or_empty (bi_metadata item)) timestamp)
           :: points)
  end.

Definition batch_store_reply (points : list Point) : jsval :=
  VObj [("success", VBool true);
        ("message",
         VStr ("Successfully stored " ++ pretty (length points) ++ " items"));
        ("ids", VArr (map (fun point => VStr (pt_id point)) points))].

Definition batch_store_body (a : BatchArgs) : M ToolResult :=
  let collection_name := default_to COLLECTION_NAME (b_collection_name a) in
  let texts := map bi_information (b_items a) in
  embeddings <- embedBatch texts ;;
  points <- batch_points (b_items a) embeddings 0 ;;
  qdrantClient_upsert collection_name points ;;;
  ret (text_result (JSON_stringify (batch_store_reply points))).

Definition qdrant_batch_store (a : BatchArgs) : World -> ToolResult * World :=
  tool_try (batch_store_body a) "batch storing information".

(** One variant per registered tool. *)
Inductive ToolCall : Type :=
| Call_store (a : StoreArgs)
| Call_find (a : FindArgs)
| Call_hybrid_search (a : HybridArgs)
| Call_filtered_search (a : FilteredArgs)
| Call_collection_stats (collection_name : string)
| Call_list_collections
| Call_batch_store (a : BatchArgs).

Definition tool_name (c : ToolCall) : string :=
  match c with
  | Call_store _ => "qdrant-store"
  | Call_find _ => "qdrant-find"
  | Call_hybrid_search _ => "qdrant-hybrid-search"
  | Call_filtered_search _ => "qdrant-filtered-search"
  | Call_collection_stats _ => "qdrant-collection-stats"
  | Call_list_collections => "qdrant-list-collections"
  | Call_batch_store _ => "qdrant-batch-store"
  end.

Definition call_tool (c : ToolCall) : World -> ToolResult * World :=
  match c with
  | Call_store a => qdrant_store a
  | Call_find a => qdrant_find a
  | Call_hybrid_search a => qdrant_hybrid_search a
  | Call_filtered_search a => qdrant_filtered_search a
  | Call_collection_stats n => qdrant_collection_stats n
  | Call_list_collections => qdrant_list_collections
  | Call_batch_store a => qdrant_batch_store a
  end.

(** The text that precedes [error.message] in the tool's error result. *)
Definition error_prefix (c : ToolCall) : string :=
  match c with
  | Call_store _ => "Error storing information: "
  | Call_find _ => "Error searching information: "
  | Call_hybrid_search _ => "Error performing hybrid search: "
  | Call_filtered_search _ => "Error performing filtered search: "
  | Call_collection_stats _ => "Error getting collection stats: "
  | Call_list_collections => "Error listing collections: "
  | Call_batch_store _ => "Error batch storing information: "
  end.

(** The events a run appended to the trace. *)
Definition new_events (before after : World) : list Event :=
  drop (length (trace before)) (trace after).

End Pipeline.

(** ** The session table and the HTTP endpoints *)

(** The part of the MCP SDK's [SSEServerTransport] the endpoints use. *)
Record CloseOutcome : Type := mkCloseOutcome {
  fires_onclose : bool;           (* the transport called its [onclose] *)
  close_error : option Error      (* what [close()] threw, if it threw *)
}.

Record Response : Type := mkResponse {
  status : Z;
  body : string
}.

Record PostOutcome : Type := mkPostOutcome {
  sent : option Response;         (* what the transport wrote to [res] *)
  post_error : option Error       (* what [handlePostMessage] threw *)
}.

Class McpSdk : Type := {
  Transport : Type;
  (** The transport of the [n]-th connection and its [sessionId]. *)
  new_SSEServerTransport : nat -> Transport;
  sessionId_of : Transport -> string;
  (** [server.connect(transport)] then [transport.start()]. *)
  connect_and_start : Transport -> PostOutcome;
  handlePostMessage : Transport -> jsval -> PostOutcome;
  close : Transport -> CloseOutcome
}.

Inductive AppEvent : Type :=
| AppLog (line : string)
| AppError (line : string) (e : option Error)
| AppHandlePost (sessionId : string) (frame : jsval)
| AppClose (sessionId : string)
| AppExit (code : Z).

(** The names every object literal inherits from [Object.prototype]. *)
Definition Object_prototype_keys : list string :=
  ["constructor"; "__defineGetter__"; "__defineSetter__"; "hasOwnProperty";
   "__lookupGetter__"; "__lookupSetter__"; "isPrototypeOf";
   "propertyIsEnumerable"; "toString"; "valueOf"; "__proto__";
   "toLocaleString"].

Section Sessions.

Context `{McpSdk}.

(** [const transports = {}] and the console. *)
Record App : Type := mkApp {
  transports : gmap string Transport;
  connections : nat;
  app_trace : list AppEvent
}.

(** The value of [transports[key]]. *)
Inductive Property : Type :=
| Own (transport : Transport)
| Inherited (key : string)
| Undefined.

Definition transports_get (table : gmap string Transport) (key : string)
  : Property :=
  match table !! key with
  | Some transport => Own transport
  | None =>
      if bool_decide (key ∈ Object_prototype_keys) then Inherited key
      else Undefined
  end.

Definition app_emit (ev : AppEvent) (app : App) : App :=
  mkApp (transports app) (connections app) (app_trace app ++ [ev]).

Definition app_delete (sessionId : string) (app : App) : App :=
  mkApp (delete sessionId (transports app)) (connections app) (app_trace app).

(** [transport.onclose], as installed by [GET /mcp]. *)
Definition transport_onclose (sessionId : string) (app : App) : App :=
  app_delete sessionId
    (app_emit (AppLog ("SSE transport closed for session " ++ sessionId)) app).

(** [app.get('/mcp', ...)]: the response is [None] while the stream stays
    open. *)
Definition get_mcp (app : App) : option Response * App :=
  let app := app_emit (AppLog "Received GET request to /mcp (establishing SSE stream)") app in
  let transport := new_SSEServerTransport (connections app) in
  let sessionId := sessionId_of transport in
  let app :=
    mkApp (<[sessionId := transport]> (transports app)) (S (connections app))
          (app_trace app) in
  let outcome := connect_and_start transport in
  match post_error outcome with
  | None =>
      (sent outcome,
       app_emit (AppLog ("Established SSE stream with session ID: " ++ sessionId)) app)
  | Some error =>
      let app := app_emit (AppError "Error establishing SSE stream:" (Some error)) app in
      match sent outcome with
      | None => (Some (mkResponse 500 "Error establishing SSE stream"), app)
      | Some r => (Some r, app)
      end
  end.

(** [app.post('/messages', ...)] with [req.query.sessionId] and [req.body]. *)
Definition post_messages (sessionId : option string) (frame : jsval) (app : App)
  : option Response * App :=
  let app := app_emit (AppLog "Received POST request to /messages") app in
  if negb (truthy_string sessionId) then
    (Some (mkResponse 400 "Missing sessionId parameter"),
     app_emit (AppError "No session ID provided in request URL" None) app)
  else
    let sessionId := default_to "" sessionId in
    match transports_get (transports app) sessionId with
    | Undefined =>
        (Some (mkResponse 404 "Session not found"),
         app_emit
           (AppError ("No active transport found for session ID: " ++ sessionId) None)
           app)
    | Own transport =>
        let app := app_emit (AppHandlePost sessionId frame) app in
        let outcome := handlePostMessage transport frame in
        match post_error outcome with
        | None => (sent outcome, app)
        | Some error =>
            let app := app_emit (AppError "Error handling request:" (Some error)) app in
            match sent outcome with
            | None => (Some (mkResponse 500 "Error handling request"), app)
            | Some r => (Some r, app)
            end
        end
    | Inherited _ =>
        (* [transport.handlePostMessage] is [undefined]: the call throws
           inside the [try] before anything is sent. *)
        (Some (mkResponse 500 "Error handling request"),
         app_emit
           (AppError "Error handling request:"
              (Some (TypeError "transport.handlePostMessage is not a function")))
           app)
    end.

(** The keys [for (const sessionId in transports)] enumerates: the own
    keys of the table, each once.  Their order here is the map's, not the
    insertion order of JavaScript. *)
Definition for_in_keys (table : gmap string Transport) : list string :=
  (map_to_list table).*1.

(** One turn of the [for ... in] loop on SIGINT: the [try] block and its
    [catch]. *)
Definition close_one (sessionId : string) (transport : Transport) (app : App)
  : App :=
  let app := app_emit (AppLog ("Closing transport for session " ++ sessionId)) app in
  let app := app_emit (AppClose sessionId) app in
  let outcome := close transport in
  let app := if fires_onclose outcome then transport_onclose sessionId app else app in
  match close_error outcome with
  | None => app_delete sessionId app
  | Some error =>
      app_emit
        (AppError ("Error closing transport for session " ++ sessionId ++ ":")
           (Some error))
        app
  end.

(** The loop over the enumerated keys; a key deleted before it is reached
    is not visited. *)
Fixpoint shutdown_loop (keys : list string) (app : App) : App :=
  match keys with
  | [] => app
  | sessionId :: rest =>
      match transports app !! sessionId with
      | None => shutdown_loop rest app
      | Some transport => shutdown_loop rest (close_one sessionId transport app)
      end
  end.

(** [process.on('SIGINT', ...)] *)
Definition shutdown (app : App) : App :=
  let app := app_emit (AppLog "Shutting down server...") app in
  let app := shutdown_loop (for_in_keys (transports app)) app in
  let app := app_emit (AppLog "Server shutdown complete") app in
  app_emit (AppExit 0) app.

(** The sessions a run tried to close, in order. *)
Definition close_attempts (events : list AppEvent) : list string :=
  omap (fun ev => match ev with AppClose s => Some s | _ => None end) events.

Definition handled_posts (events : list AppEvent) : list string :=
  omap (fun ev => match ev with AppHandlePost s _ => Some s | _ => None end) events.

End Sessions.

(** ** Vocabulary of the statements *)

Definition calls_of (events : list Event) : list Call :=
  omap (fun ev => match ev with EvCall c _ => Some c | _ => None end) events.

Definition is_failed_call (ev : Event) : bool :=
  match ev with
  | EvCall _ (Some _) => true
  | _ => false
  end.

(** What the first [init()] of the process appends to the trace. *)
Definition init_events `{Collaborators} (w : World) : list Event :=
  if initialized w then []
  else [EvLog ("Initializing FastEmbed with model: " ++ modelName);
        EvCall (FastEmbed_create modelName) None;
        EvLog "FastEmbed initialization complete"].

(** A store answers a vector-only search (no keyword query, no scoring
    parameters, payloads not switched off) with the first [limit] entries
    of one ranking of its points for that vector and filter. *)
Definition ranked_retrieval `{Collaborators}
    (rank : Store -> string -> option jsval -> option jsval -> list ScoredPoint)
  : Prop :=
  ∀ (s : Store) (collection : string) (p : SearchParams),
    q_query_text p = None →
    q_score_threshold p = None →
    q_params p = None →
    q_with_payload p ≠ Some false →
    store_search s collection p =
      (inr (take (Z.to_nat (q_limit p))
              (rank s collection (q_vector p) (q_filter p))), s).

(** A computation reports its collaborators' failures: it only appends to
    the trace, and a collaborator call it records as failed is the error it
    throws. *)
Definition reports_failures `{Collaborators} {A : Type} (m : M A) : Prop :=
  ∀ w : World,
    ∃ events : list Event,
      trace (snd (m w)) = trace w ++ events ∧
      ∀ c e, EvCall c (Some e) ∈ events → fst (m w) = inl e.

(** A run that touched neither the store, nor the UUID source, nor the
    clock. *)
Definition same_resources `{Collaborators} (before after : World) : Prop :=
  store after = store before ∧
  uuid_draws after = uuid_draws before ∧
  clock_reads after = clock_reads before.

(** The [score] of a formatted result. *)
Definition score_of (item : jsval) : jsval :=
  match item with
  | VObj fields => own_prop fields "score"
  | _ => VUndefined
  end.

(** The number of [crypto.randomUUID()] draws the first [i] items of a
    batch cause: one for each item without a truthy [id]. *)
Definition draws_before (items : list BatchItem) (i : nat) : nat :=
  length (filter (fun item => truthy_string (bi_id item) = false) (take i items)).

(** The id of the point made from the [i]-th item of a batch, when [u]
    UUIDs were drawn before the batch. *)
Definition batch_point_id `{Collaborators} (items : list BatchItem) (u i : nat)
    (item : BatchItem) : string :=
  if truthy_string (bi_id item) then default_to "" (bi_id item)
  else randomUUID (u + draws_before items i).

Definition is_store_call (ev : Event) : bool :=
  match ev with
  | EvCall (qdrant_search _ _) _ | EvCall (qdrant_upsert _ _) _
  | EvCall (qdrant_getCollection _) _ | EvCall qdrant_getCollections _ => true
  | _ => false
  end.

(** Some search among [calls] carries the weights of the call [a] as its
    scoring parameters. *)
Definition passes_weights_through (a : HybridArgs) (calls : list Call) : Prop :=
  ∃ collection p,
    qdrant_search collection p ∈ calls ∧
    q_params p =
      Some (mkScoringParams (default_to (7 # 10)%Q (h_vector_weight a))
              (default_to (3 # 10)%Q (h_keyword_weight a))).

Definition result_keys : list string :=
  ["information"; "metadata"; "score"; "timestamp"].

Definition is_search_tool (c : ToolCall) : bool :=
  match c with
  | Call_find _ | Call_hybrid_search _ | Call_filtered_search _ => true
  | _ => false
  end.

(** ** A small instance, to run the definitions *)

Module Demo.

Definition scored (p : Point) : ScoredPoint :=
  mkScoredPoint (VStr (pt_id p)) (VNum 1)
    (VObj [("information", VStr (pl_information (pt_payload p)));
           ("metadata", pl_metadata (pt_payload p));
           ("timestamp", VStr (pl_timestamp (pt_payload p)))]).

Definition rank (s : list Point) (collection : string)
    (vector filter : option jsval) : list ScoredPoint :=
  map scored s.

(** Keyword queries see the points in the opposite order. *)
Definition search (s : list Point) (collection : string) (p : SearchParams)
  : (Error + list ScoredPoint) * list Point :=
  (inr (take (Z.to_nat (q_limit p))
          (match q_query_text p with
           | None => rank s collection (q_vector p) (q_filter p)
           | Some _ => reverse (rank s collection (q_vector p) (q_filter p))
           end)), s).

Definition is_undefined (v : jsval) : bool :=
  match v with
  | VUndefined => true
  | _ => false
  end.

Definition upsert (s : list Point) (collection : string) (points : list Point)
  : (Error + unit) * list Point :=
  if existsb (fun p => is_undefined (pt_vector p)) points
  then (inl (mkError "Bad Request"), s)
  else (inr tt, s ++ points).

Definition embed_texts (m : unit) (texts : list string) : Error + list jsval :=
  if existsb (String.eqb "") texts
  then inl (mkError "empty input")
  else inr (map (fun t => VArr [VNum (inject_Z (Z.of_nat (String.length t)))]) texts).

Definition stringify (v : jsval) : string :=
  match v with
  | VArr l => "[" ++ pretty (length l) ++ " items]"
  | VObj fields => "{" ++ String.concat "," (fields.*1) ++ "}"
  | VStr s => s
  | _ => "value"
  end.

Definition env : Collaborators :=
  {| Store := list Point;
     Model := unit;
     create_model := fun _ => inr tt;
     embed_with := embed_texts;
     store_search := search;
     store_upsert := upsert;
     store_getCollection :=
       fun s name => (inr (VObj [("points_count", VNum (inject_Z (Z.of_nat (length s))))]), s);
     store_getCollections :=
       fun s => (inr (VObj [("collections", VArr [VObj [("name", VStr "agent-ren3")]])]), s);
     randomUUID := fun n => ("uuid-" ++ pretty n)%string;
     toISOString := fun n => ("2025-01-01T00:00:0" ++ pretty n ++ ".000Z")%string;
     JSON_stringify := stringify;
     env_COLLECTION_NAME := None |}.

Definition world0 : @World env :=
  @mkWorld env [] None false 0 0 [].

Definition sky : StoreArgs :=
  mkStoreArgs "The sky is blue" (Some (VObj [("topic", VStr "weather")])).

Definition batch_ab : BatchArgs :=
  mkBatchArgs
    [mkBatchItem "a" None (Some ""); mkBatchItem "a" None (Some "mine");
     mkBatchItem "b" None None]
    None.

(** The world after storing [batch_ab]. *)
Definition world3 : @World env := snd (@qdrant_batch_store env batch_ab world0).

Definition hybrid_no_keywords : HybridArgs :=
  mkHybridArgs "sky" (Some (7 # 10)%Q) (Some 0%Q) None (Some 2%Z).

Definition sdk : McpSdk :=
  {| Transport := string;
     new_SSEServerTransport := fun n => ("session-" ++ pretty n)%string;
     sessionId_of := fun t => t;
     connect_and_start := fun _ => mkPostOutcome None None;
     handlePostMessage := fun _ _ => mkPostOutcome (Some (mkResponse 202 "Accepted")) None;
     close := fun t =>
       if String.eqb t "session-1"
       then mkCloseOutcome false (Some (mkError "stuck"))
       else mkCloseOutcome true None |}.

Definition app0 : @App sdk := @mkApp sdk ∅ 0 [].

(** Three clients connected. *)
Definition app3 : @App sdk :=
  snd (@get_mcp sdk (snd (@get_mcp sdk (snd (@get_mcp sdk app0))))).

End Demo.

(** ** Start-up: [ensureCollection] and [main] *)

(** What start-up needs beyond the tools' collaborators:
    [qdrantClient.createCollection], [parseInt] and two more variables of
    the environment. *)
Class Startup `{Collaborators} : Type := {
  store_createCollection : Store -> string -> jsval -> (Error + unit) * Store;
  parseInt : string -> jsval;
  env_VECTOR_SIZE : option string;
  env_PORT : option string
}.

Inductive AdminCall : Type :=
| admin_getCollections
| admin_createCollection (collection : string) (config : jsval).

Inductive BootEvent : Type :=
| BootLog (line : string)
| BootError (line : string) (e : Error)
| BootCall (c : AdminCall) (failure : option Error)
| BootListen (port : jsval)
| BootExit (code : Z).

(** [collection.name === name] *)
Definition name_is (name : string) (v : jsval) : bool :=
  match v with
  | VStr s => String.eqb s name
  | _ => false
  end.

(** [list.some(collection => collection.name === name)]: it stops at the
    first match, and throws at an element that is [null] or [undefined]. *)
Fixpoint some_named (name : string) (list : list jsval) : Error + bool :=
  match list with
  | [] => inr false
  | collection :: rest =>
      match get_prop collection "name" with
      | inl e => inl e
      | inr v => if name_is name v then inr true else some_named name rest
      end
  end.

(** [collections.collections.some(...)] on the answer of
    [getCollections()]. *)
Definition collection_listed (collections : jsval) (name : string) : Error + bool :=
  match get_prop collections "collections" with
  | inl e => inl e
  | inr (VArr list) => some_named name list
  | inr VUndefined =>
      inl (TypeError "Cannot read properties of undefined (reading 'some')")
  | inr VNull =>
      inl (TypeError "Cannot read properties of null (reading 'some')")
  | inr _ => inl (TypeError "collections.collections.some is not a function")
  end.

Section Boot.

Context `{Startup}.

(** [parseInt(process.env.VECTOR_SIZE || '384')] *)
Definition VECTOR_SIZE : jsval :=
  parseInt (if truthy_string env_VECTOR_SIZE
            then default_to "" env_VECTOR_SIZE
            else "384").



Definition collection_config : jsval :=
  VObj [("vectors", VObj [("size", VECTOR_SIZE); ("distance", VStr "Cosine")])].

Record Boot : Type := mkBoot {
  boot_store : Store;
  boot_trace : list BootEvent
}.

Definition boot_emit (ev : BootEvent) (b : Boot) : Boot :=
  mkBoot (boot_store b) (boot_trace b ++ [ev]).

(** The [catch] of [ensureCollection]: log and throw again. *)
Definition ensure_rethrow (error : Error) (b : Boot) : (Error + unit) * Boot :=
  (inl error, boot_emit (BootError "Error ensuring collection exists:" error) b).

Definition ensureCollection (b : Boot) : (Error + unit) * Boot :=
  let '(answer, s1) := store_getCollections (boot_store b) in
  let b :=
    mkBoot s1 (boot_trace b ++ [BootCall admin_getCollections (failure_of answer)]) in
  match answer with
  | inl error => ensure_rethrow error b
  | inr collections =>
      match collection_listed collections COLLECTION_NAME with
      | inl error => ensure_rethrow error b
      | inr true =>
          (inr tt,
           boot_emit
             (BootLog ("Collection " ++ COLLECTION_NAME ++ " already exists.")) b)
      | inr false =>
          let b :=
            boot_emit (BootLog ("Creating collection " ++ COLLECTION_NAME ++ "...")) b in
          let '(created, s2) :=
            store_createCollection (boot_store b) COLLECTION_NAME collection_config in
          let b :=
            mkBoot s2
              (boot_trace b
               ++ [BootCall (admin_createCollection COLLECTION_NAME collection_config)
                     (failure_of created)]) in
          match created with
          | inl error => ensure_rethrow error b
          | inr _ =>
              (inr tt,
               boot_emit
                 (BootLog ("Collection " ++ COLLECTION_NAME ++ " created.")) b)
          end
      end
  end.


Definition admin_calls (events : list BootEvent) : list AdminCall :=
  omap (fun ev => match ev with BootCall c _ => Some c | _ => None end) events.



End Boot.

(** ** More vocabulary *)

Definition is_embedding_call (c : Call) : bool :=
  match c with
  | FastEmbed_create _ | model_embed _ => true
  | _ => false
  end.

Definition is_create_call (ev : Event) : bool :=
  match ev with
  | EvCall (FastEmbed_create _) _ => true
  | _ => false
  end.

(** The embedding client is consistent: once [initialized], it holds a
    model. *)
Definition client_ok `{Collaborators} (w : World) : Prop :=
  initialized w = true → is_Some (model w).

(** A computation respects the embedding client: it only appends to the
    trace, keeps the client consistent, and, once the client is
    initialised, neither creates a model again nor replaces the one it has. *)
Definition client_stable `{Collaborators} {A : Type} (m : M A) : Prop :=
  ∀ w : World,
    ∃ events : list Event,
      trace (snd (m w)) = trace w ++ events ∧
      (client_ok w → client_ok (snd (m w))) ∧
      (initialized w = true →
       initialized (snd (m w)) = true ∧
       model (snd (m w)) = model w ∧
       Forall (fun ev => is_create_call ev = false) events).

(** An embedding call that threw. *)
Definition is_embedding_failure (ev : Event) : bool :=
  match ev with
  | EvCall c (Some _) => is_embedding_call c
  | _ => false
  end.

(** A computation only appends to the trace, and only events that
    satisfy [P]. *)
Definition appends `{Collaborators} {A : Type} (P : Event → Prop) (m : M A) : Prop :=
  ∀ w : World,
    ∃ events : list Event,
      trace (snd (m w)) = trace w ++ events ∧ Forall P events.

(** The point carries a payload a property can be read from. *)
Definition has_payload (r : ScoredPoint) : bool :=
  match sp_payload r with
  | VUndefined | VNull => false
  | _ => true
  end.

(** The first element of an array of embeddings, as [embeddings[0]]. *)
Definition first_embedding (r : Error + list jsval) : Error + jsval :=
  match r with
  | inl e => inl e
  | inr embeddings => inr (default VUndefined (embeddings !! 0%nat))
  end.

(** After shutdown a session is still in the table exactly when its
    [close()] threw without having called [onclose]. *)
Definition stays_after_shutdown (o : CloseOutcome) : bool :=
  match close_error o with
  | Some _ => negb (fires_onclose o)
  | None => false
  end.

(** The response of [POST /messages] once the transport was handed the
    frame. *)
Definition response_of (o : PostOutcome) : option Response :=
  match post_error o, sent o with
  | Some _, None => Some (mkResponse 500 "Error handling request")
  | _, r => r
  end.

(** The answer of [getCollections()] that lists the collections [names]. *)
Definition collections_answer (names : list string) : jsval :=
  VObj [("collections", VArr (map (fun n => VObj [("name", VStr n)]) names))].

(** The events a start-up step appended. *)
Definition boot_new `{Collaborators} (before after : Boot) : list BootEvent :=
  drop (length (boot_trace before)) (boot_trace after).

Module DemoBoot.

Definition createCollection (s : list Point) (collection : string) (config : jsval)
  : (Error + unit) * list Point :=
  if String.eqb collection "" then (inl (mkError "Bad Request"), s)
  else (inr tt, s).

Definition startup : @Startup Demo.env :=
  @Build_Startup Demo.env createCollection
    (fun s => if String.eqb s "384" then VNum 384%Q else VUndefined)
    None None.

Definition boot0 : @Boot Demo.env := @mkBoot Demo.env [] [].

(** An environment whose store does not answer [getCollections]. *)
Definition down : Collaborators :=
  {| Store := unit;
     Model := unit;
     create_model := fun _ => inl (mkError "no model");
     embed_with := fun _ _ => inl (mkError "no model");
     store_search := fun s _ _ => (inl (mkError "connect ECONNREFUSED"), s);
     store_upsert := fun s _ _ => (inl (mkError "connect ECONNREFUSED"), s);
     store_getCollection := fun s _ => (inl (mkError "connect ECONNREFUSED"), s);
     store_getCollections := fun s => (inl (mkError "connect ECONNREFUSED"), s);
     randomUUID := fun n => ("uuid-" ++ pretty n)%string;
     toISOString := fun n => pretty n;
     JSON_stringify := Demo.stringify;
     env_COLLECTION_NAME := Some "notes" |}.

Definition down_startup : @Startup down :=
  @Build_Startup down (fun s _ _ => (inl (mkError "connect ECONNREFUSED"), s))
    (fun _ => VNum 384%Q) (Some "384") (Some "8080").

Definition down_boot : @Boot down := @mkBoot down tt [].

Definition down_world : @World down := @mkWorld down tt None false 0 0 [].

(** The demo store, asked for a collection it does not list. *)
Definition notes : Collaborators :=
  {| Store := list Point;
     Model := unit;
     create_model := fun _ => inr tt;
     embed_with := Demo.embed_texts;
     store_search := Demo.search;
     store_upsert := Demo.upsert;
     store_getCollection := fun s name => (inl (mkError "Not found"), s);
     store_getCollections :=
       fun s => (inr (collections_answer ["agent-ren3"; "archive"]), s);
     randomUUID := fun n => ("uuid-" ++ pretty n)%string;
     toISOString := fun n => pretty n;
     JSON_stringify := Demo.stringify;
     env_COLLECTION_NAME := Some "notes" |}.

Definition notes_startup : @Startup notes :=
  @Build_Startup notes createCollection (fun _ => VNum 384%Q) None None.

Definition notes_boot : @Boot notes := @mkBoot notes [] [].

(** A store whose answers include a point without payload. *)
Definition bare : Collaborators :=
  {| Store := unit;
     Model := unit;
     create_model := fun _ => inr tt;
     embed_with := Demo.embed_texts;
     store_search :=
       fun s _ _ =>
         (inr [mkScoredPoint (VStr "p1") (VNum 1%Q)
                 (VObj [("information", VStr "kept"); ("metadata", VObj []);
                        ("timestamp", VStr "t")]);
               mkScoredPoint (VStr "p2") (VNum (1 # 2)%Q) VNull], s);
     store_upsert := fun s _ _ => (inr tt, s);
     store_getCollection := fun s _ => (inr VNull, s);
     store_getCollections := fun s => (inr VNull, s);
     randomUUID := fun n => ("uuid-" ++ pretty n)%string;
     toISOString := fun n => pretty n;
     JSON_stringify := Demo.stringify;
     env_COLLECTION_NAME := None |}.

Definition bare_world : @World bare := @mkWorld bare tt None false 0 0 [].

Definition find_sky : FindArgs := mkFindArgs "sky" (Some 2%Z) None.

(** What hybrid-search and find return for "sky" once [Demo.batch_ab] is
    stored. *)
Definition hybrid_sky_items : list jsval :=
  Eval vm_compute in
    match fst (@hybrid_items Demo.env Demo.hybrid_no_keywords Demo.world3) with
    | inr items => items
    | inl _ => []
    end.

Definition find_sky_items : list jsval :=
  Eval vm_compute in
    match fst (@find_items Demo.env find_sky Demo.world3) with
    | inr items => items
    | inl _ => []
    end.

Definition by_filter : FilteredArgs :=
  mkFilteredArgs (Some "") (VObj [("topic", VStr "weather")]) None (Some 3%Z).

Definition by_query : FilteredArgs :=
  mkFilteredArgs (Some "sky") (VObj []) None None.

End DemoBoot.

(** ** The shape of a search result *)

Definition defined (v : jsval) : bool :=
  match v with
  | VUndefined => false
  | _ => true
  end.

(** What [JSON.stringify] serialises of a value: a property whose value is
    [undefined] is left out of its object, and an [undefined] element of an
    array is written [null]. *)
Fixpoint json_value (v : jsval) : jsval :=
  match v with
  | VArr elems =>
      VArr (map (fun x => match json_value x with
                          | VUndefined => VNull
                          | y => y
                          end) elems)
  | VObj fields =>
      VObj (omap (fun kv => match json_value (snd kv) with
                            | VUndefined => None
                            | y => Some (fst kv, y)
                            end) fields)
  | _ => v
  end.

(** [result.payload.k] for a point that has a payload. *)
Definition payload_field (r : ScoredPoint) (k : string) : jsval :=
  match sp_payload r with
  | VObj fields => own_prop fields k
  | _ => VUndefined
  end.

(** The item a point is shown as: [{information, metadata, score,
    timestamp}], three values read from its payload and one from the point. *)
Definition item_fields (r : ScoredPoint) : list (string * jsval) :=
  [("information", payload_field r "information");
   ("metadata", payload_field r "metadata");
   ("score", sp_score r);
   ("timestamp", payload_field r "timestamp")].

Definition result_item (r : ScoredPoint) : jsval := VObj (item_fields r).

(** The keys of an object that have a value other than [undefined]. *)
Definition shown_keys (fields : list (string * jsval)) : list string :=
  (filter (fun kv => defined (snd kv) = true) fields).*1.

(** The point has a score, and its payload has the three fields. *)
Definition complete_point (r : ScoredPoint) : bool :=
  defined (payload_field r "information")
  && defined (payload_field r "metadata")
  && defined (sp_score r)
  && defined (payload_field r "timestamp").

(** The part of the store's answer a search tool keeps: hybrid-search cuts
    it with [slice(0, limit)], find and filtered-search keep all of it. *)
Definition kept_points (c : ToolCall) (results : list ScoredPoint)
  : list ScoredPoint :=
  match c with
  | Call_hybrid_search a => slice0 results (default_to 10%Z (h_limit a))
  | _ => results
  end.

Module DemoSparse.

(** A store holding one point written with an [information] only, and one
    written with an empty payload and returned without score. *)
Definition env : Collaborators :=
  {| Store := unit;
     Model := unit;
     create_model := fun _ => inr tt;
     embed_with := Demo.embed_texts;
     store_search :=
       fun s _ _ =>
         (inr [mkScoredPoint (VStr "p1") (VNum (1 # 4)%Q)
                 (VObj [("information", VStr "only")]);
               mkScoredPoint (VStr "p2") VUndefined (VObj [])], s);
     store_upsert := fun s _ _ => (inr tt, s);
     store_getCollection := fun s _ => (inr VNull, s);
     store_getCollections := fun s => (inr VNull, s);
     randomUUID := fun n => ("uuid-" ++ pretty n)%string;
     toISOString := fun n => pretty n;
     JSON_stringify := Demo.stringify;
     env_COLLECTION_NAME := None |}.

Definition world0 : @World env := @mkWorld env tt None false 0 0 [].

Definition find_only : FindArgs := mkFindArgs "only" (Some 2%Z) None.

End DemoSparse.

(** ** Running the model *)

Example demo_store_then_find :
  fst (@qdrant_find Demo.env (mkFindArgs "weather color" (Some 1%Z) None)
         (snd (@qdrant_store Demo.env Demo.sky Demo.world0)))
  = text_result "[1 items]".
Proof. vm_compute. reflexivity. Qed.

(** ** Failures of the collaborators reach the tool boundary *)

Lemma string_append_assoc (a b c : string) :
  ((a ++ b) ++ c = a ++ b ++ c)%string.
Proof.
  induction a as [|ch a IH]; [done|].
  change (String ch ((a ++ b) ++ c) = String ch (a ++ b ++ c))%string.
  by rewrite IH.
Qed.

Section Failures.

Context `{Collaborators}.

Lemma reports_ret {A : Type} (a : A) : reports_failures (ret a).
Proof.
  intros w. exists []. simpl. rewrite app_nil_r. split; [done|].
  intros c e Hin. by apply elem_of_nil in Hin.
Qed.

Lemma reports_throw {A : Type} (e : Error) : reports_failures (@throw _ A e).
Proof.
  intros w. exists []. simpl. rewrite app_nil_r. split; [done|].
  intros c e' Hin. by apply elem_of_nil in Hin.
Qed.

Lemma reports_lift {A : Type} (r : Error + A) : reports_failures (lift r).
Proof.
  intros w. exists []. simpl. rewrite app_nil_r. split; [done|].
  intros c e Hin. by apply elem_of_nil in Hin.
Qed.

Lemma reports_emit (ev : Event) :
  is_failed_call ev = false → reports_failures (emit ev).
Proof.
  intros Hev w. exists [ev]. split; [done|].
  intros c e Hin. apply list_elem_of_singleton in Hin. subst ev. discriminate.
Qed.

Lemma reports_randomUUID : reports_failures crypto_randomUUID.
Proof.
  intros w. exists []. simpl. rewrite app_nil_r. split; [done|].
  intros c e Hin. by apply elem_of_nil in Hin.
Qed.

Lemma reports_new_Date : reports_failures new_Date_toISOString.
Proof.
  intros w. exists []. simpl. rewrite app_nil_r. split; [done|].
  intros c e Hin. by apply elem_of_nil in Hin.
Qed.

Lemma reports_set_model (m : Model) : reports_failures (set_model m).
Proof.
  intros w. exists []. simpl. rewrite app_nil_r. split; [done|].
  intros c e Hin. by apply elem_of_nil in Hin.
Qed.

Lemma reports_set_initialized : reports_failures set_initialized.
Proof.
  intros w. exists []. simpl. rewrite app_nil_r. split; [done|].
  intros c e Hin. by apply elem_of_nil in Hin.
Qed.

Lemma reports_bind {A B : Type} (m : M A) (k : A → M B) :
  reports_failures m → (∀ a, reports_failures (k a)) →
  reports_failures (bind m k).
Proof.
  intros Hm Hk w. destruct (Hm w) as (evs & Htr & Hfail).
  unfold bind. destruct (m w) as [[e|a] w1]; simpl in *.
  - exists evs. split; [done|].
    intros c e' Hin. specialize (Hfail _ _ Hin). by simplify_eq.
  - destruct (Hk a w1) as (evs2 & Htr2 & Hfail2).
    exists (evs ++ evs2). split.
    + by rewrite Htr2, Htr, app_assoc.
    + intros c e Hin. apply elem_of_app in Hin as [Hin|Hin].
      * by specialize (Hfail _ _ Hin).
      * by apply Hfail2 with c.
Qed.

(** [catch (error) { console.error(..., error); throw error; }] *)
Lemma reports_rethrow {A : Type} (m : M A) (line : string) :
  reports_failures m →
  reports_failures
    (try_catch m (fun error => bind (console_error line error) (fun _ => throw error))).
Proof.
  intros Hm w. destruct (Hm w) as (evs & Htr & Hfail).
  unfold try_catch. destruct (m w) as [[e|a] w1]; simpl in *.
  - exists (evs ++ [EvError line e]). split.
    + by rewrite Htr, app_assoc.
    + intros c e' Hin. apply elem_of_app in Hin as [Hin|Hin].
      * by apply Hfail with c.
      * by apply list_elem_of_singleton in Hin.
  - exists evs. by split.
Qed.

Lemma reports_qdrant {A : Type} (c : Call) (op : Store → (Error + A) * Store) :
  reports_failures (qdrant c op).
Proof.
  intros w. unfold qdrant. destruct (op (store w)) as [r s'] eqn:Hop.
  exists [EvCall c (failure_of r)]. split; [done|].
  intros c' e Hin. apply list_elem_of_singleton in Hin.
  simpl. destruct r as [e'|a]; simpl in Hin; congruence.
Qed.

Lemma reports_create : reports_failures FastEmbed_create_call.
Proof.
  intros w. unfold FastEmbed_create_call.
  exists [EvCall (FastEmbed_create modelName) (failure_of (create_model modelName))].
  split; [done|].
  intros c e Hin. apply list_elem_of_singleton in Hin.
  simpl. destruct (create_model modelName); simpl in Hin; congruence.
Qed.

Lemma reports_model_embed (texts : list string) :
  reports_failures (this_model_embed texts).
Proof.
  intros w. unfold this_model_embed. destruct (model w) as [m|].
  - exists [EvCall (model_embed texts) (failure_of (embed_with m texts))].
    split; [done|].
    intros c e Hin. apply list_elem_of_singleton in Hin.
    simpl. destruct (embed_with m texts); simpl in Hin; congruence.
  - exists []. simpl. rewrite app_nil_r. split; [done|].
    intros c e Hin. by apply elem_of_nil in Hin.
Qed.

Lemma reports_init : reports_failures init.
Proof.
  intros w. unfold init. destruct (initialized w).
  - apply (reports_ret tt).
  - revert w. fold (reports_failures
      (bind (console_log ("Initializing FastEmbed with model: " ++ modelName))
         (fun _ => bind FastEmbed_create_call (fun m =>
            bind (set_model m) (fun _ => bind set_initialized (fun _ =>
              console_log "FastEmbed initialization complete")))))).
    apply reports_bind; [by apply reports_emit|intros _].
    apply reports_bind; [apply reports_create|intros m].
    apply reports_bind; [apply reports_set_model|intros _].
    apply reports_bind; [apply reports_set_initialized|intros _].
    by apply reports_emit.
Qed.

Lemma reports_embed (text : string) : reports_failures (embed text).
Proof.
  unfold embed. apply reports_bind; [apply reports_init|intros _].
  apply reports_rethrow.
  apply reports_bind; [apply reports_model_embed|intros ?; apply reports_ret].
Qed.

Lemma reports_embedBatch (texts : list string) :
  reports_failures (embedBatch texts).
Proof.
  unfold embedBatch. apply reports_bind; [apply reports_init|intros _].
  apply reports_rethrow, reports_model_embed.
Qed.

Lemma reports_batch_points (items : list BatchItem) (embeddings : list jsval)
    (index : nat) :
  reports_failures (batch_points items embeddings index).
Proof.
  revert index. induction items as [|item rest IH]; intros index; simpl.
  - apply reports_ret.
  - apply reports_bind.
    { unfold id_or_randomUUID. destruct (truthy_string (bi_id item)).
      - apply reports_ret.
      - apply reports_randomUUID. }
    intros id. apply reports_bind; [apply reports_new_Date|intros ts].
    apply reports_bind; [apply IH|intros ps; apply reports_ret].
Qed.

Lemma reports_items_result (items : M (list jsval)) :
  reports_failures items → reports_failures (items_result items).
Proof.
  intros Hitems. unfold items_result.
  apply reports_bind; [done|intros ?; apply reports_ret].
Qed.

Lemma reports_store_body (a : StoreArgs) : reports_failures (store_body a).
Proof.
  unfold store_body.
  apply reports_bind; [apply reports_embed|intros embedding].
  apply reports_bind; [apply reports_randomUUID|intros id].
  apply reports_bind; [apply reports_new_Date|intros ts].
  apply reports_bind; [apply reports_qdrant|intros ?; apply reports_ret].
Qed.

Lemma reports_find_items (a : FindArgs) : reports_failures (find_items a).
Proof.
  unfold find_items.
  apply reports_bind; [apply reports_embed|intros embedding].
  apply reports_bind; [apply reports_qdrant|intros ?; apply reports_lift].
Qed.

Lemma reports_hybrid_items (a : HybridArgs) : reports_failures (hybrid_items a).
Proof.
  unfold hybrid_items.
  apply reports_bind; [apply reports_embed|intros embedding].
  apply reports_bind; [apply reports_qdrant|intros ?; apply reports_lift].
Qed.

Lemma reports_filtered_items (a : FilteredArgs) :
  reports_failures (filtered_items a).
Proof.
  unfold filtered_items. apply reports_bind.
  { destruct (default_to true (fs_use_vector a) && truthy_string (fs_query a)).
    - apply reports_bind; [apply reports_embed|intros ?; apply reports_ret].
    - apply reports_ret. }
  intros vector.
  apply reports_bind; [apply reports_qdrant|intros ?; apply reports_lift].
Qed.

Lemma reports_batch_store_body (a : BatchArgs) :
  reports_failures (batch_store_body a).
Proof.
  unfold batch_store_body.
  apply reports_bind; [apply reports_embedBatch|intros embeddings].
  apply reports_bind; [apply reports_batch_points|intros points].
  apply reports_bind; [apply reports_qdrant|intros ?; apply reports_ret].
Qed.

(** The [catch] of a tool turns the failure its body reports into the
    tool's error result. *)
Lemma tool_try_reports (body : M ToolResult) (what : string) (w : World)
    (c : Call) (e : Error) :
  reports_failures body →
  EvCall c (Some e) ∈ new_events w (snd (tool_try body what w)) →
  fst (tool_try body what w) =
    error_result ("Error " ++ what ++ ": " ++ message e)%string.
Proof.
  intros Hbody. destruct (Hbody w) as (evs & Htr & Hfail).
  unfold new_events, tool_try. destruct (body w) as [[e'|r] w1]; simpl in *.
  - rewrite Htr, <- app_assoc, drop_app_length. intros Hin.
    apply elem_of_app in Hin as [Hin|Hin].
    + specialize (Hfail _ _ Hin). by simplify_eq.
    + by apply list_elem_of_singleton in Hin.
  - rewrite Htr, drop_app_length. intros Hin.
    by specialize (Hfail _ _ Hin).
Qed.

Lemma call_tool_reports (c : ToolCall) :
  ∃ (body : M ToolResult) (what : string),
    reports_failures body ∧
    call_tool c = tool_try body what ∧
    error_prefix c = ("Error " ++ what ++ ": ")%string.
Proof.
  destruct c as [a|a|a|a|n| |a]; simpl.
  - exists (store_body a), "storing information".
    split; [apply reports_store_body|done].
  - exists (items_result (find_items a)), "searching information".
    split; [apply reports_items_result, reports_find_items|done].
  - exists (items_result (hybrid_items a)), "performing hybrid search".
    split; [apply reports_items_result, reports_hybrid_items|done].
  - exists (items_result (filtered_items a)), "performing filtered search".
    split; [apply reports_items_result, reports_filtered_items|done].
  - exists (collection_stats_body n), "getting collection stats".
    split; [|done]. unfold collection_stats_body.
    apply reports_bind; [apply reports_qdrant|intros ?; apply reports_ret].
  - exists list_collections_body, "listing collections".
    split; [|done]. unfold list_collections_body.
    apply reports_bind; [apply reports_qdrant|intros ?; apply reports_ret].
  - exists (batch_store_body a), "batch storing information".
    split; [apply reports_batch_store_body|done].
Qed.

(** C4. In every tool invocation, a collaborator call that throws ([FastEmbed.create],
    [model.embed], or a Qdrant client call, with error [e]) is caught by the
    tool: the invocation returns one error-flagged result, with a single text
    item made of the tool's prefix and [e.message]. *)
Theorem collaborator_failure_becomes_error_result
    (c : ToolCall) (w : World) (failed : Call) (e : Error) :
  EvCall failed (Some e) ∈ new_events w (snd (call_tool c w)) →
  fst (call_tool c w) =
    {| content := [(error_prefix c ++ message e)%string]; isError := true |}.
Proof.
  intros Hin. destruct (call_tool_reports c) as (body & what & Hbody & Hcall & Hprefix).
  rewrite Hcall in *. rewrite Hprefix.
  rewrite (tool_try_reports body what w failed e Hbody Hin).
  unfold error_result. f_equal. f_equal.
  by rewrite !string_append_assoc.
Qed.

End Failures.

(** ** What a run of the embedding client leaves behind *)

Section Embedding.

Context `{Collaborators}.

Lemma init_run (w : World) :
  same_resources w (snd (init w)) ∧
  (fst (init w) = inr tt → trace (snd (init w)) = trace w ++ init_events w).
Proof.
  unfold init, init_events, same_resources.
  destruct (initialized w); simpl.
  { by rewrite app_nil_r. }
  unfold bind, console_log, emit, FastEmbed_create_call; simpl.
  destruct (create_model modelName) as [e|m]; simpl; [done|].
  split; [done|]. intros _. by rewrite <- !app_assoc.
Qed.

Lemma this_model_embed_run (texts : list string) (w : World) :
  same_resources w (snd (this_model_embed texts w)) ∧
  (∀ embeddings, fst (this_model_embed texts w) = inr embeddings →
     trace (snd (this_model_embed texts w)) =
       trace w ++ [EvCall (model_embed texts) None]).
Proof.
  unfold this_model_embed, same_resources.
  destruct (model w) as [m|]; simpl; [|done].
  destruct (embed_with m texts) as [e|embs]; simpl; done.
Qed.

(** [embedBatch(texts)]: its resources and, when it succeeds, its trace. *)
Lemma embedBatch_run (texts : list string) (w : World) :
  same_resources w (snd (embedBatch texts w)) ∧
  (∀ embeddings, fst (embedBatch texts w) = inr embeddings →
     trace (snd (embedBatch texts w)) =
       trace w ++ init_events w ++ [EvCall (model_embed texts) None]).
Proof.
  unfold embedBatch, bind, try_catch.
  destruct (init_run w) as [(Hs & Hu & Hc) Htr].
  destruct (init w) as [[e|[]] w1]; simpl in *; [done|].
  destruct (this_model_embed_run texts w1) as [(Hs' & Hu' & Hc') Htr'].
  destruct (this_model_embed texts w1) as [[e|embs] w2]; simpl in *.
  - unfold same_resources; simpl. split; [|done].
    by rewrite Hs', Hu', Hc'.
  - split; [unfold same_resources; by rewrite Hs', Hu', Hc'|].
    intros embeddings _. rewrite (Htr' embs eq_refl), (Htr eq_refl).
    by rewrite <- app_assoc.
Qed.

(** [embed(text)] is [embedBatch([text])] followed by [embeddings[0]]. *)
Lemma embed_run (text : string) (w : World) :
  same_resources w (snd (embed text w)) ∧
  (∀ embedding, fst (embed text w) = inr embedding →
     trace (snd (embed text w)) =
       trace w ++ init_events w ++ [EvCall (model_embed [text]) None]).
Proof.
  unfold embed, bind, try_catch.
  destruct (init_run w) as [(Hs & Hu & Hc) Htr].
  destruct (init w) as [[e|[]] w1]; simpl in *; [done|].
  destruct (this_model_embed_run [text] w1) as [(Hs' & Hu' & Hc') Htr'].
  destruct (this_model_embed [text] w1) as [[e|embs] w2]; simpl in *.
  - unfold same_resources; simpl. split; [|done].
    by rewrite Hs', Hu', Hc'.
  - split; [unfold same_resources; by rewrite Hs', Hu', Hc'|].
    intros embedding _. rewrite (Htr' embs eq_refl), (Htr eq_refl).
    by rewrite <- app_assoc.
Qed.

End Embedding.

(** ** The three search tools *)

Section Search.

Context `{Collaborators}.

Lemma Qpositive_zero (q : Q) : (q == 0)%Q → Qpositive q = false.
Proof.
  intros Hq. unfold Qpositive.
  assert (Qle_bool q 0 = true) as ->; [|done].
  apply Qle_bool_iff, Qle_lteq. by right.
Qed.

Lemma slice0_nonneg {A : Type} (l : list A) (e : Z) :
  (0 ≤ e)%Z → slice0 l e = take (Z.to_nat e) l.
Proof.
  intros He. unfold slice0.
  destruct (Z.ltb_spec e 0) as [?|_]; [lia|].
  destruct (Z.le_gt_cases e (Z.of_nat (length l))) as [Hle|Hgt].
  - by rewrite Z.min_l.
  - rewrite Z.min_r, Nat2Z.id by lia. rewrite take_ge by lia.
    by rewrite take_ge by lia.
Qed.

(** Taking [limit] out of the first [2 * limit] entries of a ranking is
    taking its first [limit] entries. *)
Lemma slice0_take_twice {A : Type} (l : list A) (limit : Z) :
  slice0 (take (Z.to_nat (limit * 2)) l) limit = take (Z.to_nat limit) l.
Proof.
  destruct (Z.le_gt_cases 0 limit) as [Hle|Hgt].
  - rewrite slice0_nonneg by done. rewrite take_take. f_equal. lia.
  - replace (Z.to_nat (limit * 2)) with 0%nat by lia.
    replace (Z.to_nat limit) with 0%nat by lia.
    unfold slice0. simpl. destruct (limit <? 0)%Z; apply take_nil.
Qed.

(** The result of a search tool is decided by what its item list is. *)
Lemma search_tool_result (items : M (list jsval)) (what : string) (w : World) :
  fst (tool_try (items_result items) what w) =
    match fst (items w) with
    | inr formattedResults => text_result (JSON_stringify (VArr formattedResults))
    | inl error => error_result ("Error " ++ what ++ ": " ++ message error)%string
    end.
Proof.
  unfold tool_try, items_result, bind, ret.
  by destruct (items w) as [[e|v] w1].
Qed.

(** C1. Over a store that answers a vector-only search with the first
    [limit] entries of a ranking, hybrid-search with keywordWeight = 0 and
    any vectorWeight yields, for every query, filter and limit, the item list
    of find on the same query, filter and limit (or fails with the same
    error); when find succeeds the two tool results are equal. *)
Theorem hybrid_without_keywords_ranks_like_find
    (rank : Store → string → option jsval → option jsval → list ScoredPoint)
    (query : string) (vector_weight : option Q) (keyword_weight : Q)
    (filter : option jsval) (limit : Z) (w : World) :
  ranked_retrieval rank →
  (keyword_weight == 0)%Q →
  let hybrid := mkHybridArgs query vector_weight (Some keyword_weight) filter (Some limit) in
  let find := mkFindArgs query (Some limit) filter in
  fst (hybrid_items hybrid w) = fst (find_items find w) ∧
  isError (fst (qdrant_hybrid_search hybrid w)) = isError (fst (qdrant_find find w)) ∧
  (isError (fst (qdrant_find find w)) = false →
   fst (qdrant_hybrid_search hybrid w) = fst (qdrant_find find w)).
Proof.
  intros Hrank Hzero hybrid find.
  assert (fst (hybrid_items hybrid w) = fst (find_items find w)) as Hitems.
  { unfold hybrid_items, find_items, bind, hybrid, find; simpl.
    destruct (embed query w) as [[e|embedding] w1]; [done|].
    unfold qdrantClient_search, qdrant, hybrid_params, find_params; simpl.
    rewrite (Qpositive_zero _ Hzero).
    rewrite !Hrank by done. simpl.
    by rewrite slice0_take_twice. }
  split; [done|].
  unfold qdrant_hybrid_search, qdrant_find. rewrite !search_tool_result, Hitems.
  destruct (fst (find_items find w)); simpl; split; done.
Qed.

Lemma Qpositive_spec (q : Q) : Qpositive q = true ↔ (0 < q)%Q.
Proof.
  unfold Qpositive. rewrite negb_true_iff, <- not_true_iff_false, Qle_bool_iff.
  split; [apply Qnot_le_lt|apply Qlt_not_le].
Qed.

Lemma new_events_app (w w' : World) (events : list Event) :
  trace w' = trace w ++ events → new_events w w' = events.
Proof. intros Htr. unfold new_events. rewrite Htr. apply drop_app_length. Qed.

Lemma calls_of_app (l1 l2 : list Event) :
  calls_of (l1 ++ l2) = calls_of l1 ++ calls_of l2.
Proof. apply omap_app. Qed.

Lemma format_results_inv (results : list ScoredPoint) (items : list jsval) :
  format_results results = inr items →
  length items = length results ∧
  Forall (fun item => obj_keys item = Some result_keys) items ∧
  map score_of items = map sp_score results.
Proof.
  revert items. induction results as [|r rest IH]; intros items; simpl.
  - intros [= <-]. by repeat split.
  - unfold format_result.
    destruct (get_prop (sp_payload r) "information"); [done|].
    destruct (get_prop (sp_payload r) "metadata"); [done|].
    destruct (get_prop (sp_payload r) "timestamp"); [done|].
    destruct (format_results rest) as [e|vs]; [done|].
    intros [= <-]. destruct (IH vs eq_refl) as (Hlen & Hall & Hscores).
    simpl. repeat split; [by rewrite Hlen|by constructor|by rewrite Hscores].
Qed.

(** C2, amended. In a hybrid-search call whose query embeds, the calls to
    the collaborators are one [model.embed([query])] and then one search of
    the default collection; the search carries the embedding and asks for
    exactly 2 × limit candidates; when keywordWeight > 0 it carries the
    query text and both weights unchanged, and when keywordWeight is not
    positive it carries neither; the answer of the store is cut with
    [slice(0, limit)], which for limit ≥ 0 keeps its first [limit] items,
    and each item keeps the score the store gave it. *)
Theorem hybrid_search_pipeline (a : HybridArgs) (w w1 : World) (embedding : jsval) :
  embed (h_query a) w = (inr embedding, w1) →
  let limit := default_to 10%Z (h_limit a) in
  let vector_weight := default_to (7 # 10)%Q (h_vector_weight a) in
  let keyword_weight := default_to (3 # 10)%Q (h_keyword_weight a) in
  let p := hybrid_params embedding a in
  calls_of (new_events w (snd (qdrant_hybrid_search a w))) =
    calls_of (init_events w)
    ++ [model_embed [h_query a]; qdrant_search COLLECTION_NAME p] ∧
  q_vector p = Some embedding ∧
  q_limit p = (2 * limit)%Z ∧
  ((0 < keyword_weight)%Q →
   q_query_text p = Some (h_query a) ∧
   q_params p = Some (mkScoringParams vector_weight keyword_weight)) ∧
  (¬ (0 < keyword_weight)%Q → q_query_text p = None ∧ q_params p = None) ∧
  (∀ results,
     fst (store_search (store w1) COLLECTION_NAME p) = inr results →
     fst (hybrid_items a w) = format_results (slice0 results limit) ∧
     ((0 ≤ limit)%Z → slice0 results limit = take (Z.to_nat limit) results) ∧
     (∀ items,
        format_results (slice0 results limit) = inr items →
        fst (qdrant_hybrid_search a w) = text_result (JSON_stringify (VArr items)) ∧
        map score_of items = map sp_score (slice0 results limit))).
Proof.
  intros Hembed limit vector_weight keyword_weight p.
  destruct (embed_run (h_query a) w) as [_ Htr].
  rewrite Hembed in Htr. simpl in Htr. specialize (Htr embedding eq_refl).
  split.
  { unfold qdrant_hybrid_search, tool_try, items_result, hybrid_items, bind.
    rewrite Hembed. unfold qdrantClient_search, qdrant. fold p.
    destruct (store_search (store w1) COLLECTION_NAME p) as [[e|results] s']; simpl.
    - erewrite new_events_app; [|simpl; rewrite Htr, <- !app_assoc; reflexivity].
      by rewrite !calls_of_app.
    - unfold lift.
      destruct (format_results (slice0 results (default_to 10%Z (h_limit a))))
        as [e|items]; simpl.
      + erewrite new_events_app; [|simpl; rewrite Htr, <- !app_assoc; reflexivity].
        by rewrite !calls_of_app.
      + erewrite new_events_app; [|simpl; rewrite Htr, <- !app_assoc; reflexivity].
        by rewrite !calls_of_app. }
  split; [done|]. split; [unfold p, hybrid_params; simpl; lia|].
  split.
  { intros Hpos. apply Qpositive_spec in Hpos. unfold p, hybrid_params; simpl.
    fold keyword_weight. by rewrite Hpos. }
  split.
  { intros Hneg. unfold p, hybrid_params; simpl. fold keyword_weight.
    destruct (Qpositive keyword_weight) eqn:Hpos; [|done].
    by apply Qpositive_spec in Hpos. }
  intros results Hresults.
  assert (fst (hybrid_items a w) = format_results (slice0 results limit)) as Hitems.
  { unfold hybrid_items, bind. rewrite Hembed. unfold qdrantClient_search, qdrant.
    fold p. destruct (store_search (store w1) COLLECTION_NAME p) as [r s'].
    simpl in Hresults. subst r. done. }
  split; [done|]. split; [apply slice0_nonneg|].
  intros items Hfmt. split.
  - unfold qdrant_hybrid_search. rewrite search_tool_result, Hitems.
    fold limit. by rewrite Hfmt.
  - by apply format_results_inv.
Qed.

Lemma format_result_item (r : ScoredPoint) :
  has_payload r = true → format_result r = inr (result_item r).
Proof.
  unfold has_payload, format_result, result_item, item_fields, payload_field.
  by destruct (sp_payload r).
Qed.

Lemma format_result_needs_payload (r : ScoredPoint) (item : jsval) :
  format_result r = inr item → has_payload r = true.
Proof.
  unfold has_payload, format_result. by destruct (sp_payload r).
Qed.

(** What [format_results] returns, when it returns: the item of each
    point, in order. *)
Lemma format_results_items (results : list ScoredPoint) (items : list jsval) :
  format_results results = inr items →
  Forall (fun r => has_payload r = true) results ∧
  items = map result_item results.
Proof.
  revert items. induction results as [|r rest IH]; intros items; simpl.
  - by intros [= <-].
  - destruct (format_result r) as [e|item] eqn:Hr; [done|].
    pose proof (format_result_needs_payload r item Hr) as Hpayload.
    rewrite (format_result_item r Hpayload) in Hr. injection Hr as <-.
    destruct (format_results rest) as [e|vs]; [done|].
    intros [= <-]. destruct (IH vs eq_refl) as [Hall ->].
    split; [by constructor|done].
Qed.

Lemma json_value_defined (v : jsval) : defined (json_value v) = defined v.
Proof. by destruct v. Qed.

(** [JSON.stringify] shows of an object the keys whose value is not
    [undefined]. *)
Lemma json_value_keys (fields : list (string * jsval)) :
  obj_keys (json_value (VObj fields)) = Some (shown_keys fields).
Proof.
  change (json_value (VObj fields)) with
    (VObj (omap (fun kv : string * jsval =>
                   match json_value (snd kv) with
                   | VUndefined => None
                   | y => Some (fst kv, y)
                   end) fields)).
  unfold obj_keys, shown_keys. f_equal.
  induction fields as [|[k v] rest IH]; [done|].
  destruct (defined v) eqn:Hv.
  - rewrite filter_cons_True by done.
    pose proof (json_value_defined v) as Hj. rewrite Hv in Hj.
    cbn [omap list_omap fst snd].
    destruct (json_value v); try done; cbn [fmap list_fmap fst]; by rewrite <- IH.
  - rewrite filter_cons_False by (simpl; congruence).
    destruct v; try done.
Qed.

Lemma shown_keys_complete (r : ScoredPoint) :
  shown_keys (item_fields r) = result_keys ↔ complete_point r = true.
Proof.
  unfold shown_keys, item_fields, complete_point, result_keys.
  destruct (payload_field r "information"), (payload_field r "metadata"),
    (sp_score r), (payload_field r "timestamp"); simpl; split; try done;
    rewrite ?filter_cons_True, ?filter_cons_False by (simpl; congruence);
    simpl;
    rewrite ?filter_cons_True, ?filter_cons_False by (simpl; congruence);
    simpl;
    rewrite ?filter_cons_True, ?filter_cons_False by (simpl; congruence);
    simpl;
    rewrite ?filter_cons_True, ?filter_cons_False by (simpl; congruence);
    simpl; done.
Qed.

(** A successful search tool returns the serialised item list and leaves
    the world as its item computation left it. *)
Lemma search_tool_run (items : M (list jsval)) (what : string) (w : World) :
  isError (fst (tool_try (items_result items) what w)) = false →
  ∃ formattedResults,
    fst (items w) = inr formattedResults ∧
    fst (tool_try (items_result items) what w) =
      text_result (JSON_stringify (VArr formattedResults)) ∧
    snd (tool_try (items_result items) what w) = snd (items w).
Proof.
  unfold tool_try, items_result, bind, ret.
  destruct (items w) as [[e|v] w1]; simpl; [done|].
  intros _. by exists v.
Qed.

(** The shape the three item computations share: something that leaves the
    store alone yields what the search parameters depend on, one search is
    made, and what is kept of its answer is formatted. *)
Lemma search_and_format {X : Type} (pre : M X) (params : X → SearchParams)
    (cut : list ScoredPoint → list ScoredPoint) (w : World)
    (items : list jsval) :
  store (snd (pre w)) = store w →
  (∃ events, trace (snd (pre w)) = trace w ++ events) →
  fst (bind pre (fun x =>
         bind (qdrantClient_search COLLECTION_NAME (params x))
              (fun results => lift (format_results (cut results)))) w) = inr items →
  ∃ (x : X) (results : list ScoredPoint) (events : list Event),
    fst (store_search (store w) COLLECTION_NAME (params x)) = inr results ∧
    format_results (cut results) = inr items ∧
    trace (snd (bind pre (fun x =>
             bind (qdrantClient_search COLLECTION_NAME (params x))
                  (fun results => lift (format_results (cut results)))) w)) =
      trace w ++ events ++ [EvCall (qdrant_search COLLECTION_NAME (params x)) None].
Proof.
  intros Hstore [events Htr]. unfold bind, qdrantClient_search, qdrant, lift.
  destruct (pre w) as [[e|x] w1]; simpl in *; [done|].
  rewrite Hstore.
  destruct (store_search (store w) COLLECTION_NAME (params x))
    as [[e|results] s'] eqn:Hanswer; simpl; [done|].
  intros Hfmt. exists x, results, events.
  rewrite ?Hanswer, Htr, <- app_assoc. by simpl.
Qed.

Lemma embed_keeps_store (text : string) (w : World) :
  store (snd (embed text w)) = store w ∧
  ∃ events, trace (snd (embed text w)) = trace w ++ events.
Proof.
  destruct (embed_run text w) as [(Hs & _ & _) _].
  destruct (reports_embed text w) as (events & Htr & _).
  split; [done|by exists events].
Qed.

(** The items of a successful search tool, the search that produced them
    and the trace of the run. *)
Lemma search_tool_items (c : ToolCall) (w : World) :
  is_search_tool c = true →
  isError (fst (call_tool c w)) = false →
  ∃ (p : SearchParams) (results : list ScoredPoint) (items : list jsval)
    (events : list Event),
    fst (store_search (store w) COLLECTION_NAME p) = inr results ∧
    format_results (kept_points c results) = inr items ∧
    fst (call_tool c w) = text_result (JSON_stringify (VArr items)) ∧
    new_events w (snd (call_tool c w)) =
      events ++ [EvCall (qdrant_search COLLECTION_NAME p) None].
Proof.
  intros Hsearch Hok.
  destruct c as [a|a|a|a|n| |a]; try done; simpl in *.
  - unfold qdrant_find in *.
    destruct (search_tool_run _ _ _ Hok) as (items & Hitems & -> & ->).
    destruct (embed_keeps_store (f_query a) w) as [Hs Htr].
    destruct (search_and_format (embed (f_query a))
                (fun embedding => find_params embedding a) (fun r => r)
                w items Hs Htr Hitems)
      as (embedding & results & events & Hanswer & Hfmt & Hfinal).
    exists (find_params embedding a), results, items, events.
    split; [done|]. split; [done|]. split; [done|].
    by apply new_events_app.
  - unfold qdrant_hybrid_search in *.
    destruct (search_tool_run _ _ _ Hok) as (items & Hitems & -> & ->).
    destruct (embed_keeps_store (h_query a) w) as [Hs Htr].
    destruct (search_and_format (embed (h_query a))
                (fun embedding => hybrid_params embedding a)
                (fun r => slice0 r (default_to 10%Z (h_limit a)))
                w items Hs Htr Hitems)
      as (embedding & results & events & Hanswer & Hfmt & Hfinal).
    exists (hybrid_params embedding a), results, items, events.
    split; [done|]. split; [done|]. split; [done|].
    by apply new_events_app.
  - unfold qdrant_filtered_search in *.
    destruct (search_tool_run _ _ _ Hok) as (items & Hitems & -> & ->).
    assert (store (snd ((if default_to true (fs_use_vector a)
                              && truthy_string (fs_query a)
                         then bind (embed (default_to "" (fs_query a)))
                                (fun embedding => ret (Some embedding))
                         else ret None) w)) = store w ∧
            ∃ events,
              trace (snd ((if default_to true (fs_use_vector a)
                                && truthy_string (fs_query a)
                           then bind (embed (default_to "" (fs_query a)))
                                  (fun embedding => ret (Some embedding))
                           else ret None) w)) = trace w ++ events)
      as [Hs Htr].
    { destruct (default_to true (fs_use_vector a) && truthy_string (fs_query a)).
      - destruct (embed_keeps_store (default_to "" (fs_query a)) w) as [Hs Htr].
        unfold bind, ret.
        by destruct (embed (default_to "" (fs_query a)) w) as [[e|v] w1].
      - split; [done|]. exists []. simpl. by rewrite app_nil_r. }
    destruct (search_and_format _
                (fun vector => filtered_params vector a) (fun r => r)
                w items Hs Htr Hitems)
      as (vector & results & events & Hanswer & Hfmt & Hfinal).
    exists (filtered_params vector a), results, items, events.
    split; [done|]. split; [done|]. split; [done|].
    by apply new_events_app.
Qed.

(** C5, amended. A successful result of find, hybrid-search or
    filtered-search is the serialisation of one object per point kept from
    the answer the store gave to the search of this call (hybrid-search keeps
    [slice(0, limit)] of it, the other two all of it), in the store's order,
    built by one rule whichever tool produced it: information, metadata and
    timestamp are read from the point's payload and score from the point.
    Each object has the four keys information, metadata, score, timestamp;
    [JSON.stringify] writes a key exactly when its value is not [undefined],
    so an item is written with exactly the four keys if and only if the point
    has a score and its payload has the three fields. *)
Theorem search_results_are_built_alike (c : ToolCall) (w : World) :
  is_search_tool c = true →
  isError (fst (call_tool c w)) = false →
  ∃ (p : SearchParams) (results : list ScoredPoint),
    last (calls_of (new_events w (snd (call_tool c w)))) =
      Some (qdrant_search COLLECTION_NAME p) ∧
    fst (store_search (store w) COLLECTION_NAME p) = inr results ∧
    Forall (fun r => has_payload r = true) (kept_points c results) ∧
    fst (call_tool c w) =
      text_result (JSON_stringify (VArr (map result_item (kept_points c results)))) ∧
    Forall
      (fun r =>
         result_item r =
           VObj [("information", payload_field r "information");
                 ("metadata", payload_field r "metadata");
                 ("score", sp_score r);
                 ("timestamp", payload_field r "timestamp")] ∧
         obj_keys (result_item r) = Some result_keys ∧
         obj_keys (json_value (result_item r)) = Some (shown_keys (item_fields r)) ∧
         (shown_keys (item_fields r) = result_keys ↔ complete_point r = true))
      (kept_points c results).
Proof.
  intros Hsearch Hok.
  destruct (search_tool_items c w Hsearch Hok)
    as (p & results & items & evs & Hanswer & Hfmt & Hresult & Hnew).
  destruct (format_results_items _ _ Hfmt) as [Hpayloads ->].
  exists p, results. split.
  { rewrite Hnew, calls_of_app. simpl. by rewrite last_snoc. }
  split; [done|]. split; [done|]. split; [done|].
  apply Forall_forall. intros r _.
  split; [done|]. split; [done|]. split; [apply json_value_keys|].
  apply shown_keys_complete.
Qed.

End Search.

(** ** store and batch-store *)

Section Storing.

Context `{Collaborators}.

Lemma draws_before_cons (item : BatchItem) (rest : list BatchItem) (i : nat) :
  draws_before (item :: rest) (S i) =
    ((if truthy_string (bi_id item) then 0 else 1) + draws_before rest i)%nat.
Proof.
  unfold draws_before. simpl. rewrite filter_cons.
  destruct (truthy_string (bi_id item)); by case_decide.
Qed.

Lemma draws_before_lt (items : list BatchItem) (i : nat) (item : BatchItem) :
  items !! i = Some item →
  truthy_string (bi_id item) = false →
  (draws_before items i < draws_before items (length items))%nat.
Proof.
  intros Hitem Hid. unfold draws_before.
  rewrite firstn_all.
  rewrite <- (take_drop_middle items i item Hitem) at 2.
  rewrite filter_app, filter_cons_True by done.
  rewrite length_app. simpl. lia.
Qed.

(** The [items.map(...)] of batch-store never throws, logs nothing, and
    builds one point per item, in order. *)
Lemma batch_points_run (items : list BatchItem) (embeddings : list jsval)
    (index : nat) (w : World) :
  ∃ (points : list Point) (w2 : World),
    batch_points items embeddings index w = (inr points, w2) ∧
    trace w2 = trace w ∧
    store w2 = store w ∧
    uuid_draws w2 = (uuid_draws w + draws_before items (length items))%nat ∧
    length points = length items ∧
    ∀ i item,
      items !! i = Some item →
      ∃ timestamp,
        points !! i =
          Some (mkPoint (batch_point_id items (uuid_draws w) i item)
                  (default VUndefined (embeddings !! (index + i)%nat))
                  (mkPayload (bi_information item)
                     (metadata_or_empty (bi_metadata item)) timestamp)).
Proof.
  revert index w. induction items as [|item rest IH]; intros index w.
  { exists [], w. simpl. by repeat split. }
  simpl. unfold bind, id_or_randomUUID.
  destruct (truthy_string (bi_id item)) eqn:Hid; simpl.
  - match goal with
    | |- context [batch_points rest embeddings (S index) ?w'] =>
        destruct (IH (S index) w') as (ps & w2 & Hrun & Htr & Hst & Hu & Hlen & Hps)
    end.
    rewrite Hrun. simpl in *. eexists _, w2. split; [reflexivity|].
    rewrite draws_before_cons, Hid. repeat split; try done; [simpl; lia|].
    intros [|i] it Hit; simpl in *.
    + simplify_eq. eexists. unfold batch_point_id. rewrite Hid.
      by rewrite Nat.add_0_r.
    + destruct (Hps i it Hit) as (ts & ->). exists ts.
      replace (index + S i)%nat with (S (index + i)) by lia.
      unfold batch_point_id. by rewrite draws_before_cons, Hid.
  - match goal with
    | |- context [batch_points rest embeddings (S index) ?w'] =>
        destruct (IH (S index) w') as (ps & w2 & Hrun & Htr & Hst & Hu & Hlen & Hps)
    end.
    rewrite Hrun. simpl in *. eexists _, w2. split; [reflexivity|].
    rewrite draws_before_cons, Hid. repeat split; try done; [lia|simpl; lia|].
    intros [|i] it Hit; simpl in *.
    + simplify_eq. eexists. unfold batch_point_id. rewrite Hid.
      unfold draws_before; simpl. by rewrite !Nat.add_0_r.
    + destruct (Hps i it Hit) as (ts & ->). exists ts.
      replace (index + S i)%nat with (S (index + i)) by lia.
      unfold batch_point_id. rewrite draws_before_cons, Hid.
      by replace (uuid_draws w + (1 + draws_before rest i))%nat
        with (S (uuid_draws w) + draws_before rest i)%nat by lia.
Qed.

Lemma embed_no_store_call (text : string) (w : World) :
  ∃ events,
    trace (snd (embed text w)) = trace w ++ events ∧
    Forall (fun ev => is_store_call ev = false) events.
Proof.
  assert (∃ events,
            trace (snd (init w)) = trace w ++ events ∧
            Forall (fun ev => is_store_call ev = false) events)
    as (evs & Htr & Hquiet).
  { unfold init. destruct (initialized w); simpl.
    { exists []. by rewrite app_nil_r. }
    unfold bind, console_log, emit, FastEmbed_create_call; simpl.
    destruct (create_model modelName) as [e|m]; simpl.
    - eexists [_; _]. rewrite <- app_assoc. split; [reflexivity|].
      by repeat constructor.
    - eexists [_; _; _]. rewrite <- !app_assoc. split; [reflexivity|].
      by repeat constructor. }
  unfold embed, bind, try_catch.
  destruct (init w) as [[e|[]] w1]; simpl in *; [by exists evs|].
  unfold this_model_embed. destruct (model w1) as [m|]; simpl.
  - destruct (embed_with m [text]) as [e|embs]; simpl.
    + eexists (evs ++ [_; _]). rewrite Htr, <- !app_assoc.
      split; [reflexivity|]. apply Forall_app. split; [done|].
      by repeat constructor.
    + eexists (evs ++ [_]). rewrite Htr, <- !app_assoc.
      split; [reflexivity|]. apply Forall_app. split; [done|].
      by repeat constructor.
  - eexists (evs ++ [_]). rewrite Htr, <- !app_assoc.
    split; [reflexivity|]. apply Forall_app. split; [done|].
    by repeat constructor.
Qed.

(** C9. Whatever the arguments of a store call, the upsert it makes
    carries exactly one point, whose id is the UUID drawn from
    [crypto.randomUUID()] during this call (the draw counter moves on by
    one, so no later call is handed the same draw), and on success the reply
    reports that same id. *)
Theorem store_point_id_is_generated (a : StoreArgs) (w : World)
    (collection : string) (points : list Point) (failure : option Error) :
  EvCall (qdrant_upsert collection points) failure
    ∈ new_events w (snd (qdrant_store a w)) →
  ∃ embedding timestamp,
    points =
      [mkPoint (randomUUID (uuid_draws w)) embedding
         (mkPayload (st_information a) (default_to (VObj []) (st_metadata a))
            timestamp)] ∧
    uuid_draws (snd (qdrant_store a w)) = S (uuid_draws w) ∧
    (failure = None →
     fst (qdrant_store a w) =
       text_result
         (JSON_stringify
            (VObj [("success", VBool true);
                   ("id", VStr (randomUUID (uuid_draws w)))]))).
Proof.
  unfold qdrant_store, tool_try, store_body, bind.
  destruct (embed_no_store_call (st_information a) w) as (evs & Htr & Hquiet).
  destruct (embed_run (st_information a) w) as [(Hs & Hu & Hc) _].
  destruct (embed (st_information a) w) as [[e|embedding] w1]; simpl in *.
  - erewrite new_events_app; [|simpl; rewrite Htr, <- app_assoc; reflexivity].
    intros Hin. apply elem_of_app in Hin as [Hin|Hin].
    + rewrite Forall_forall in Hquiet. by specialize (Hquiet _ Hin).
    + by apply list_elem_of_singleton in Hin.
  - unfold qdrantClient_upsert, qdrant; simpl.
    destruct (store_upsert _ _ _) as [[e|[]] s']; simpl.
    + erewrite new_events_app; [|simpl; rewrite Htr, <- !app_assoc; reflexivity].
      intros Hin. apply elem_of_app in Hin as [Hin|Hin].
      { rewrite Forall_forall in Hquiet. by specialize (Hquiet _ Hin). }
      apply elem_of_cons in Hin as [Hin|Hin];
        [|by apply list_elem_of_singleton in Hin].
      simplify_eq. rewrite Hu. eexists _, _. by repeat split.
    + erewrite new_events_app; [|simpl; rewrite Htr, <- ?app_assoc; reflexivity].
      intros Hin. apply elem_of_app in Hin as [Hin|Hin].
      { rewrite Forall_forall in Hquiet. by specialize (Hquiet _ Hin). }
      apply list_elem_of_singleton in Hin.
      simplify_eq. rewrite Hu. eexists _, _. by repeat split.
Qed.

(** A batch-store call whose texts embed: its collaborator calls, the
    points it upserts, and its reply. *)
Lemma batch_store_run (a : BatchArgs) (w w1 : World) (embeddings : list jsval) :
  embedBatch (map bi_information (b_items a)) w = (inr embeddings, w1) →
  ∃ points : list Point,
    calls_of (new_events w (snd (qdrant_batch_store a w))) =
      calls_of (init_events w)
      ++ [model_embed (map bi_information (b_items a));
          qdrant_upsert (default_to COLLECTION_NAME (b_collection_name a)) points] ∧
    length points = length (b_items a) ∧
    (∀ i item,
       b_items a !! i = Some item →
       ∃ timestamp,
         points !! i =
           Some (mkPoint (batch_point_id (b_items a) (uuid_draws w) i item)
                   (default VUndefined (embeddings !! i))
                   (mkPayload (bi_information item)
                      (metadata_or_empty (bi_metadata item)) timestamp))) ∧
    (isError (fst (qdrant_batch_store a w)) = false →
     fst (qdrant_batch_store a w) =
       text_result (JSON_stringify (batch_store_reply points))) ∧
    uuid_draws (snd (qdrant_batch_store a w)) =
      (uuid_draws w + draws_before (b_items a) (length (b_items a)))%nat.
Proof.
  intros Hembed.
  destruct (embedBatch_run (map bi_information (b_items a)) w) as [(Hs & Hu & Hc) Htr].
  rewrite Hembed in *. simpl in *. specialize (Htr embeddings eq_refl).
  destruct (batch_points_run (b_items a) embeddings 0 w1)
    as (points & w2 & Hrun & Htr2 & Hst2 & Hu2 & Hlen & Hps).
  exists points.
  split; [|split; [done|split; [|split]]].
  - unfold qdrant_batch_store, tool_try, batch_store_body, bind.
    rewrite Hembed, Hrun. unfold qdrantClient_upsert, qdrant.
    destruct (store_upsert _ _ _) as [[e|[]] s']; simpl.
    + erewrite new_events_app;
        [|simpl; rewrite Htr2, Htr, <- ?app_assoc; reflexivity].
      by rewrite !calls_of_app.
    + erewrite new_events_app;
        [|simpl; rewrite Htr2, Htr, <- ?app_assoc; reflexivity].
      by rewrite !calls_of_app.
  - intros i item Hitem. rewrite <- Hu. apply (Hps i item Hitem).
  - unfold qdrant_batch_store, tool_try, batch_store_body, bind.
    rewrite Hembed, Hrun. unfold qdrantClient_upsert, qdrant.
    by destruct (store_upsert _ _ _) as [[e|[]] s'].
  - unfold qdrant_batch_store, tool_try, batch_store_body, bind.
    rewrite Hembed, Hrun. unfold qdrantClient_upsert, qdrant.
    destruct (store_upsert _ _ _) as [[e|[]] s']; simpl; by rewrite Hu2, Hu.
Qed.

(** C3. In a batch-store call with N items whose texts embed, the
    embedding collaborator is called once, with the N [information] texts
    in input order; the one upsert that follows carries exactly N points, the
    [i]-th made from the [i]-th item and the [i]-th embedding; and the reply
    of a successful call lists exactly the N ids of these points, in the same
    order.  Nothing in this depends on the texts being distinct. *)
Theorem batch_store_pairs_by_position (a : BatchArgs) (w w1 : World)
    (embeddings : list jsval) :
  embedBatch (map bi_information (b_items a)) w = (inr embeddings, w1) →
  ∃ points : list Point,
    calls_of (new_events w (snd (qdrant_batch_store a w))) =
      calls_of (init_events w)
      ++ [model_embed (map bi_information (b_items a));
          qdrant_upsert (default_to COLLECTION_NAME (b_collection_name a)) points] ∧
    length points = length (b_items a) ∧
    (∀ i item,
       b_items a !! i = Some item →
       ∃ point,
         points !! i = Some point ∧
         pl_information (pt_payload point) = bi_information item ∧
         pt_vector point = default VUndefined (embeddings !! i) ∧
         pt_id point = batch_point_id (b_items a) (uuid_draws w) i item) ∧
    (isError (fst (qdrant_batch_store a w)) = false →
     fst (qdrant_batch_store a w) =
       text_result (JSON_stringify (batch_store_reply points))) ∧
    get_prop (batch_store_reply points) "ids" =
      inr (VArr (map (fun point => VStr (pt_id point)) points)) ∧
    length (map (fun point => VStr (pt_id point)) points) = length (b_items a).
Proof.
  intros Hembed.
  destruct (batch_store_run a w w1 embeddings Hembed)
    as (points & Hcalls & Hlen & Hps & Hreply & _).
  exists points. repeat split; try done.
  - intros i item Hitem. destruct (Hps i item Hitem) as (ts & Hp).
    eexists. by split.
  - by rewrite length_map.
Qed.

(** C10. In a batch-store call whose texts embed, an item whose [id] is
    the empty string is stored under a UUID drawn during this call (draw
    number [n], between the draw counter before the call and the one after
    it): the point at its position in the upsert has that UUID as id, the
    reply of a successful call lists that UUID at the same position, and,
    UUIDs being non-empty, neither is the empty string. *)
Theorem batch_store_empty_id_is_replaced (a : BatchArgs) (w w1 : World)
    (embeddings : list jsval) (i : nat) (item : BatchItem) :
  (∀ n, randomUUID n ≠ "") →
  embedBatch (map bi_information (b_items a)) w = (inr embeddings, w1) →
  b_items a !! i = Some item →
  bi_id item = Some "" →
  ∃ (points : list Point) (n : nat),
    n = (uuid_draws w + draws_before (b_items a) i)%nat ∧
    (uuid_draws w ≤ n < uuid_draws (snd (qdrant_batch_store a w)))%nat ∧
    qdrant_upsert (default_to COLLECTION_NAME (b_collection_name a)) points
      ∈ calls_of (new_events w (snd (qdrant_batch_store a w))) ∧
    pt_id <$> points !! i = Some (randomUUID n) ∧
    randomUUID n ≠ "" ∧
    (isError (fst (qdrant_batch_store a w)) = false →
     fst (qdrant_batch_store a w) =
       text_result (JSON_stringify (batch_store_reply points))) ∧
    ∃ ids,
      get_prop (batch_store_reply points) "ids" = inr (VArr ids) ∧
      ids !! i = Some (VStr (randomUUID n)).
Proof.
  intros Hnonempty Hembed Hitem Hid.
  destruct (batch_store_run a w w1 embeddings Hembed)
    as (points & Hcalls & Hlen & Hps & Hreply & Hdraws).
  destruct (Hps i item Hitem) as (ts & Hp).
  unfold batch_point_id in Hp. rewrite Hid in Hp. simpl in Hp.
  assert (draws_before (b_items a) i
          < draws_before (b_items a) (length (b_items a)))%nat as Hlt.
  { apply (draws_before_lt _ _ item); [done|]. by rewrite Hid. }
  exists points, (uuid_draws w + draws_before (b_items a) i)%nat.
  repeat split; try done.
  - lia.
  - lia.
  - rewrite Hcalls. apply elem_of_app. right. set_solver.
  - by rewrite Hp.
  - eexists. split; [reflexivity|].
    by rewrite list_lookup_fmap, Hp.
Qed.

End Storing.

(** ** The session table *)

Section SessionTable.

Context `{McpSdk}.

(** C7. A request-delivery call without a sessionId (the query parameter
    is absent, or is the empty string) is answered 400 at once, without
    handing anything to a transport, and the session table is the one it was
    before. *)
Theorem post_without_session_id_is_rejected (frame : jsval) (app : App) :
  (fst (post_messages None frame app) =
     Some (mkResponse 400 "Missing sessionId parameter") ∧
   transports (snd (post_messages None frame app)) = transports app ∧
   app_trace (snd (post_messages None frame app)) =
     app_trace app
     ++ [AppLog "Received POST request to /messages";
         AppError "No session ID provided in request URL" None]) ∧
  (fst (post_messages (Some "") frame app) =
     Some (mkResponse 400 "Missing sessionId parameter") ∧
   transports (snd (post_messages (Some "") frame app)) = transports app ∧
   app_trace (snd (post_messages (Some "") frame app)) =
     app_trace app
     ++ [AppLog "Received POST request to /messages";
         AppError "No session ID provided in request URL" None]).
Proof.
  unfold post_messages, app_emit; simpl.
  by rewrite <- !app_assoc.
Qed.

(** A sessionId that is neither in the table nor a name inherited from
    [Object.prototype] is answered 404; nothing reaches a transport and the
    table is unchanged. *)
Lemma post_unknown_session (sessionId : string) (frame : jsval) (app : App) :
  sessionId ≠ "" →
  sessionId ∉ Object_prototype_keys →
  transports app !! sessionId = None →
  fst (post_messages (Some sessionId) frame app) =
    Some (mkResponse 404 "Session not found") ∧
  transports (snd (post_messages (Some sessionId) frame app)) = transports app ∧
  handled_posts (app_trace (snd (post_messages (Some sessionId) frame app))) =
    handled_posts (app_trace app).
Proof.
  intros Hne Hproto Hlookup. unfold post_messages; simpl.
  assert (String.eqb sessionId "" = false) as ->.
  { by apply String.eqb_neq. }
  simpl. unfold transports_get; simpl. rewrite Hlookup.
  rewrite bool_decide_eq_false_2 by done. simpl.
  repeat split; try done.
  unfold handled_posts. rewrite <- !app_assoc, omap_app. simpl.
  by rewrite app_nil_r.
Qed.

(** Once a session's transport has closed, its sessionId is unknown again. *)
Lemma post_after_close (sessionId : string) (frame : jsval) (app : App) :
  sessionId ≠ "" →
  sessionId ∉ Object_prototype_keys →
  fst (post_messages (Some sessionId) frame (transport_onclose sessionId app)) =
    Some (mkResponse 404 "Session not found").
Proof.
  intros Hne Hproto. apply post_unknown_session; [done|done|].
  simpl. apply lookup_delete_eq.
Qed.

(** C6, at the input where the code departs from it: in a server where no
    session was ever opened, the sessionId "constructor" is not answered 404
    but 500, because [transports["constructor"]] is the function every
    object literal inherits. *)
Theorem post_inherited_key_is_answered_500 (frame : jsval) (n : nat)
    (events : list AppEvent) :
  fst (post_messages (Some "constructor") frame (mkApp ∅ n events)) =
    Some (mkResponse 500 "Error handling request") ∧
  fst (post_messages (Some "constructor") frame (mkApp ∅ n events)) ≠
    Some (mkResponse 404 "Session not found").
Proof. by unfold post_messages, transports_get; simpl. Qed.

Lemma close_attempts_app (l1 l2 : list AppEvent) :
  close_attempts (l1 ++ l2) = close_attempts l1 ++ close_attempts l2.
Proof. apply omap_app. Qed.

(** One turn of the loop: one close attempt, on that session only. *)
Lemma close_one_run (sessionId : string) (transport : Transport) (app : App) :
  ∃ events,
    app_trace (close_one sessionId transport app) = app_trace app ++ events ∧
    close_attempts events = [sessionId] ∧
    (∀ k, k ≠ sessionId →
       transports (close_one sessionId transport app) !! k = transports app !! k) ∧
    match close_error (close transport) with
    | Some error =>
        AppError ("Error closing transport for session " ++ sessionId ++ ":")
          (Some error) ∈ events
    | None => transports (close_one sessionId transport app) !! sessionId = None
    end.
Proof.
  unfold close_one, transport_onclose, app_delete, app_emit; simpl.
  destruct (fires_onclose (close transport)),
    (close_error (close transport)) as [e|]; simpl;
    rewrite <- ?app_assoc; simpl; eexists; (split; [reflexivity|]);
    (split; [reflexivity|]); split;
    try (intros k Hk; by rewrite ?lookup_delete_ne by done);
    try (by rewrite ?lookup_delete_eq); set_solver.
Qed.

(** The loop, over any enumeration of sessions that are in the table. *)
Lemma shutdown_loop_run (keys : list string) (app : App) :
  NoDup keys →
  (∀ k, k ∈ keys → is_Some (transports app !! k)) →
  ∃ events,
    app_trace (shutdown_loop keys app) = app_trace app ++ events ∧
    close_attempts events = keys ∧
    (∀ k, k ∉ keys → transports (shutdown_loop keys app) !! k = transports app !! k) ∧
    (∀ k transport,
       k ∈ keys → transports app !! k = Some transport →
       match close_error (close transport) with
       | Some error =>
           AppError ("Error closing transport for session " ++ k ++ ":")
             (Some error) ∈ events
       | None => transports (shutdown_loop keys app) !! k = None
       end).
Proof.
  revert app. induction keys as [|sid rest IH]; intros app Hnodup Hopen; simpl.
  { exists []. rewrite app_nil_r. repeat split; try done.
    intros k t Hk. by apply elem_of_nil in Hk. }
  apply NoDup_cons in Hnodup as [Hfresh Hnodup].
  destruct (Hopen sid) as [t Ht]; [by left|]. rewrite Ht.
  destruct (close_one_run sid t app) as (evs1 & Htr1 & Hatt1 & Hother & Hsid).
  destruct (IH (close_one sid t app) Hnodup) as (evs2 & Htr2 & Hatt2 & Hkeep & Hrest).
  { intros k Hk. rewrite Hother; [by apply Hopen; right|].
    intros ->. done. }
  exists (evs1 ++ evs2). split; [by rewrite Htr2, Htr1, app_assoc|].
  split; [by rewrite close_attempts_app, Hatt1, Hatt2|].
  split.
  - intros k Hk. apply not_elem_of_cons in Hk as [Hne Hk].
    by rewrite Hkeep, Hother.
  - intros k t' Hk Hlookup. apply elem_of_cons in Hk as [->|Hk].
    + rewrite Ht in Hlookup. simplify_eq.
      destruct (close_error (close t')) as [e|].
      * apply elem_of_app. by left.
      * by rewrite Hkeep.
    + assert (k ≠ sid) as Hne by (intros ->; done).
      specialize (Hrest k t' Hk). rewrite Hother in Hrest by done.
      specialize (Hrest Hlookup).
      destruct (close_error (close t')) as [e|]; [|done].
      apply elem_of_app. by right.
Qed.

(** C8. On shutdown the server tries to close every session of the
    table, each exactly once; a close that throws is logged and the loop goes
    on, so the handler always reaches [process.exit(0)]; and every session
    whose close did not throw is removed from the table. *)
Theorem shutdown_closes_every_session (app : App) :
  close_attempts (drop (length (app_trace app)) (app_trace (shutdown app)))
    = for_in_keys (transports app) ∧
  (∀ sessionId, is_Some (transports app !! sessionId) ↔
                sessionId ∈ for_in_keys (transports app)) ∧
  NoDup (for_in_keys (transports app)) ∧
  last (app_trace (shutdown app)) = Some (AppExit 0) ∧
  (∀ sessionId transport error,
     transports app !! sessionId = Some transport →
     close_error (close transport) = Some error →
     AppError ("Error closing transport for session " ++ sessionId ++ ":")
       (Some error) ∈ app_trace (shutdown app)) ∧
  (∀ sessionId transport,
     transports app !! sessionId = Some transport →
     close_error (close transport) = None →
     transports (shutdown app) !! sessionId = None).
Proof.
  assert (∀ k, is_Some (transports app !! k) ↔ k ∈ for_in_keys (transports app))
    as Hkeys.
  { intros k. unfold for_in_keys. rewrite list_elem_of_fmap. split.
    - intros [t Ht]. exists (k, t). split; [done|].
      by apply elem_of_map_to_list.
    - intros ([k' t] & -> & Hin). apply elem_of_map_to_list in Hin. by exists t. }
  destruct (shutdown_loop_run (for_in_keys (transports app))
              (app_emit (AppLog "Shutting down server...") app))
    as (evs & Htr & Hatt & Hkeep & Hall).
  { apply NoDup_fst_map_to_list. }
  { intros k Hk. simpl. by apply Hkeys. }
  unfold shutdown. simpl in *. rewrite Htr.
  split; [|split; [done|split; [apply NoDup_fst_map_to_list|split; [|split]]]].
  - rewrite <- !app_assoc, drop_app_length. simpl.
    rewrite close_attempts_app, Hatt. simpl. by rewrite app_nil_r.
  - by rewrite last_snoc.
  - intros sid t e Hlookup Herr.
    specialize (Hall sid t (proj1 (Hkeys sid) (mk_is_Some _ _ Hlookup)) Hlookup).
    rewrite Herr in Hall. rewrite !elem_of_app. tauto.
  - intros sid t Hlookup Hok.
    specialize (Hall sid t (proj1 (Hkeys sid) (mk_is_Some _ _ Hlookup)) Hlookup).
    by rewrite Hok in Hall.
Qed.

End SessionTable.

(** ** The statements at work on the small instance *)

Lemma demo_ranked : @ranked_retrieval Demo.env Demo.rank.
Proof.
  intros s collection p Hquery _ _ _. simpl. unfold Demo.search.
  rewrite Hquery. reflexivity.
Defined.

Lemma hybrid_without_keywords_ranks_like_find_witness :
  @ranked_retrieval Demo.env Demo.rank ∧
  (0 == 0)%Q ∧
  fst (@hybrid_items Demo.env Demo.hybrid_no_keywords Demo.world3) =
    fst (@find_items Demo.env (mkFindArgs "sky" (Some 2%Z) None) Demo.world3).
Proof.
  split; [exact demo_ranked|]. split; [reflexivity|].
  exact (proj1 (@hybrid_without_keywords_ranks_like_find Demo.env Demo.rank
                  "sky" (Some (7 # 10)%Q) 0%Q None 2%Z Demo.world3
                  demo_ranked (Qeq_refl 0%Q))).
Defined.

(** C2 as stated fails: a hybrid search with vectorWeight 0.7 and
    keywordWeight 0 sends a search that carries no weights at all. *)
Lemma hybrid_zero_keyword_weight_passes_no_weights :
  ¬ passes_weights_through Demo.hybrid_no_keywords
      (calls_of
         (@new_events Demo.env Demo.world3
            (snd (@qdrant_hybrid_search Demo.env Demo.hybrid_no_keywords
                    Demo.world3)))).
Proof.
  intros (collection & p & Hin & Hparams). vm_compute in Hin.
  apply list_elem_of_In in Hin. simpl in Hin.
  destruct Hin as [Hin|[Hin|[]]]; [discriminate Hin|].
  injection Hin as _ <-. discriminate Hparams.
Qed.

Lemma hybrid_search_pipeline_witness :
  @embed Demo.env "sky" Demo.world3 =
    (inr (VArr [VNum 3%Q]), snd (@embed Demo.env "sky" Demo.world3)) ∧
  calls_of
    (@new_events Demo.env Demo.world3
       (snd (@qdrant_hybrid_search Demo.env
               (mkHybridArgs "sky" None None None (Some 2%Z)) Demo.world3))) =
    calls_of (@init_events Demo.env Demo.world3)
    ++ [model_embed ["sky"];
        qdrant_search (@COLLECTION_NAME Demo.env)
          (hybrid_params (VArr [VNum 3%Q])
             (mkHybridArgs "sky" None None None (Some 2%Z)))].
Proof.
  assert (@embed Demo.env "sky" Demo.world3 =
            (inr (VArr [VNum 3%Q]), snd (@embed Demo.env "sky" Demo.world3)))
    as Hembed by (vm_compute; reflexivity).
  split; [exact Hembed|].
  exact (proj1 (@hybrid_search_pipeline Demo.env
                  (mkHybridArgs "sky" None None None (Some 2%Z))
                  Demo.world3 _ _ Hembed)).
Defined.

Lemma batch_store_pairs_by_position_witness :
  @embedBatch Demo.env (map bi_information (b_items Demo.batch_ab)) Demo.world0 =
    (inr [VArr [VNum 1%Q]; VArr [VNum 1%Q]; VArr [VNum 1%Q]],
     snd (@embedBatch Demo.env (map bi_information (b_items Demo.batch_ab))
            Demo.world0)) ∧
  ∃ points : list Point,
    calls_of
      (@new_events Demo.env Demo.world0
         (snd (@qdrant_batch_store Demo.env Demo.batch_ab Demo.world0))) =
      calls_of (@init_events Demo.env Demo.world0)
      ++ [model_embed ["a"; "a"; "b"]; qdrant_upsert "agent-ren3" points] ∧
    length points = 3%nat.
Proof.
  assert (@embedBatch Demo.env (map bi_information (b_items Demo.batch_ab))
            Demo.world0 =
          (inr [VArr [VNum 1%Q]; VArr [VNum 1%Q]; VArr [VNum 1%Q]],
           snd (@embedBatch Demo.env (map bi_information (b_items Demo.batch_ab))
                  Demo.world0)))
    as Hembed by (vm_compute; reflexivity).
  split; [exact Hembed|].
  destruct (@batch_store_pairs_by_position Demo.env Demo.batch_ab Demo.world0
              _ _ Hembed) as (points & Hcalls & Hlen & _).
  exists points. split; [exact Hcalls|exact Hlen].
Defined.

Lemma collaborator_failure_becomes_error_result_witness :
  EvCall (model_embed [""]) (Some (mkError "empty input"))
    ∈ @new_events Demo.env Demo.world0
        (snd (@call_tool Demo.env (Call_store (mkStoreArgs "" None)) Demo.world0)) ∧
  fst (@call_tool Demo.env (Call_store (mkStoreArgs "" None)) Demo.world0) =
    {| content := ["Error storing information: empty input"]; isError := true |}.
Proof.
  assert (EvCall (model_embed [""]) (Some (mkError "empty input"))
            ∈ @new_events Demo.env Demo.world0
                (snd (@call_tool Demo.env (Call_store (mkStoreArgs "" None))
                        Demo.world0))) as Hin.
  { vm_compute. apply list_elem_of_In. simpl. tauto. }
  split; [exact Hin|].
  exact (@collaborator_failure_becomes_error_result Demo.env _ _ _ _ Hin).
Defined.

Lemma search_results_are_built_alike_witness :
  is_search_tool (Call_hybrid_search Demo.hybrid_no_keywords) = true ∧
  isError
    (fst (@call_tool Demo.env (Call_hybrid_search Demo.hybrid_no_keywords)
            Demo.world3)) = false ∧
  ∃ (p : SearchParams) (results : list ScoredPoint),
    last (calls_of
            (@new_events Demo.env Demo.world3
               (snd (@call_tool Demo.env
                       (Call_hybrid_search Demo.hybrid_no_keywords) Demo.world3)))) =
      Some (qdrant_search (@COLLECTION_NAME Demo.env) p) ∧
    fst (@store_search Demo.env (@store Demo.env Demo.world3)
           (@COLLECTION_NAME Demo.env) p) = inr results ∧
    Forall (fun r => has_payload r = true)
      (kept_points (Call_hybrid_search Demo.hybrid_no_keywords) results) ∧
    fst (@call_tool Demo.env (Call_hybrid_search Demo.hybrid_no_keywords)
           Demo.world3) =
      text_result
        (@JSON_stringify Demo.env
           (VArr (map result_item
                    (kept_points (Call_hybrid_search Demo.hybrid_no_keywords)
                       results)))) ∧
    Forall
      (fun r =>
         result_item r =
           VObj [("information", payload_field r "information");
                 ("metadata", payload_field r "metadata");
                 ("score", sp_score r);
                 ("timestamp", payload_field r "timestamp")] ∧
         obj_keys (result_item r) = Some result_keys ∧
         obj_keys (json_value (result_item r)) = Some (shown_keys (item_fields r)) ∧
         (shown_keys (item_fields r) = result_keys ↔ complete_point r = true))
      (kept_points (Call_hybrid_search Demo.hybrid_no_keywords) results).
Proof.
  assert (is_search_tool (Call_hybrid_search Demo.hybrid_no_keywords) = true)
    as Hsearch by reflexivity.
  assert (isError
            (fst (@call_tool Demo.env (Call_hybrid_search Demo.hybrid_no_keywords)
                    Demo.world3)) = false) as Hok by (vm_compute; reflexivity).
  split; [exact Hsearch|]. split; [exact Hok|].
  exact (@search_results_are_built_alike Demo.env _ _ Hsearch Hok).
Defined.

(** Against C5 as the specification words it: the store answers find with a
    point whose payload has only [information] and a point with an empty
    payload and no score. The tool succeeds; the first item is written with
    the keys information and score only, the second with no key at all. *)
Lemma sparse_points_lose_keys :
  is_search_tool (Call_find DemoSparse.find_only) = true ∧
  isError
    (fst (@call_tool DemoSparse.env (Call_find DemoSparse.find_only)
            DemoSparse.world0)) = false ∧
  fst (@find_items DemoSparse.env DemoSparse.find_only DemoSparse.world0) =
    inr [VObj [("information", VStr "only"); ("metadata", VUndefined);
               ("score", VNum (1 # 4)%Q); ("timestamp", VUndefined)];
         VObj [("information", VUndefined); ("metadata", VUndefined);
               ("score", VUndefined); ("timestamp", VUndefined)]] ∧
  json_value
    (VArr [VObj [("information", VStr "only"); ("metadata", VUndefined);
                 ("score", VNum (1 # 4)%Q); ("timestamp", VUndefined)];
           VObj [("information", VUndefined); ("metadata", VUndefined);
                 ("score", VUndefined); ("timestamp", VUndefined)]]) =
    VArr [VObj [("information", VStr "only"); ("score", VNum (1 # 4)%Q)];
          VObj []] ∧
  ¬ Forall (fun item => obj_keys (json_value item) = Some result_keys)
      [VObj [("information", VStr "only"); ("metadata", VUndefined);
             ("score", VNum (1 # 4)%Q); ("timestamp", VUndefined)];
       VObj [("information", VUndefined); ("metadata", VUndefined);
             ("score", VUndefined); ("timestamp", VUndefined)]].
Proof.
  split; [reflexivity|]. split; [vm_compute; reflexivity|].
  split; [vm_compute; reflexivity|]. split; [vm_compute; reflexivity|].
  intros Hall. apply Forall_cons in Hall as [Hfirst _].
  vm_compute in Hfirst. discriminate Hfirst.
Qed.

Lemma store_point_id_is_generated_witness :
  EvCall
    (qdrant_upsert "agent-ren3"
       [mkPoint "uuid-0" (VArr [VNum 15%Q])
          (mkPayload "The sky is blue" (VObj [("topic", VStr "weather")])
             "2025-01-01T00:00:00.000Z")])
    None
    ∈ @new_events Demo.env Demo.world0
        (snd (@qdrant_store Demo.env Demo.sky Demo.world0)) ∧
  uuid_draws (snd (@qdrant_store Demo.env Demo.sky Demo.world0)) = 1%nat.
Proof.
  assert (EvCall
            (qdrant_upsert "agent-ren3"
               [mkPoint "uuid-0" (VArr [VNum 15%Q])
                  (mkPayload "The sky is blue" (VObj [("topic", VStr "weather")])
                     "2025-01-01T00:00:00.000Z")])
            None
            ∈ @new_events Demo.env Demo.world0
                (snd (@qdrant_store Demo.env Demo.sky Demo.world0))) as Hin.
  { vm_compute. apply list_elem_of_In. simpl. tauto. }
  split; [exact Hin|].
  destruct (@store_point_id_is_generated Demo.env _ _ _ _ _ Hin)
    as (embedding & timestamp & _ & Hdraws & _).
  exact Hdraws.
Defined.

Lemma demo_uuid_nonempty (n : nat) : @randomUUID Demo.env n ≠ "".
Proof. discriminate. Defined.

Lemma batch_store_empty_id_is_replaced_witness :
  (∀ n, @randomUUID Demo.env n ≠ "") ∧
  @embedBatch Demo.env (map bi_information (b_items Demo.batch_ab)) Demo.world0 =
    (inr [VArr [VNum 1%Q]; VArr [VNum 1%Q]; VArr [VNum 1%Q]],
     snd (@embedBatch Demo.env (map bi_information (b_items Demo.batch_ab))
            Demo.world0)) ∧
  b_items Demo.batch_ab !! 0%nat = Some (mkBatchItem "a" None (Some "")) ∧
  bi_id (mkBatchItem "a" None (Some "")) = Some "" ∧
  ∃ (points : list Point) (n : nat),
    pt_id <$> points !! 0%nat = Some (@randomUUID Demo.env n) ∧
    @randomUUID Demo.env n ≠ "".
Proof.
  assert (@embedBatch Demo.env (map bi_information (b_items Demo.batch_ab))
            Demo.world0 =
          (inr [VArr [VNum 1%Q]; VArr [VNum 1%Q]; VArr [VNum 1%Q]],
           snd (@embedBatch Demo.env (map bi_information (b_items Demo.batch_ab))
                  Demo.world0)))
    as Hembed by (vm_compute; reflexivity).
  split; [exact demo_uuid_nonempty|]. split; [exact Hembed|].
  split; [reflexivity|]. split; [reflexivity|].
  destruct (@batch_store_empty_id_is_replaced Demo.env Demo.batch_ab Demo.world0
              _ _ 0%nat (mkBatchItem "a" None (Some ""))
              demo_uuid_nonempty Hembed eq_refl eq_refl)
    as (points & n & _ & _ & _ & Hid & Hne & _).
  exists points, n. split; [exact Hid|exact Hne].
Defined.

(** ** Start-up *)

Section BootFacts.

Context `{Startup}.

Lemma boot_new_app (b b' : Boot) (events : list BootEvent) :
  boot_trace b' = boot_trace b ++ events → boot_new b b' = events.
Proof. intros Htr. unfold boot_new. rewrite Htr. apply drop_app_length. Qed.

Lemma some_named_listed (name : string) (names : list string) :
  some_named name (map (fun n => VObj [("name", VStr n)]) names) =
    inr (bool_decide (name ∈ names)).
Proof.
  induction names as [|n names IH]; simpl; [done|].
  destruct (String.eqb_spec n name) as [->|Hne].
  - by rewrite bool_decide_eq_true_2 by (by left).
  - rewrite IH. f_equal. apply bool_decide_ext. rewrite elem_of_cons.
    split; [by right|]. by intros [->|?].
Qed.

(** [ensureCollection] asks for the list of collections once, and creates
    the default collection, with the configured vector size and the cosine
    distance, exactly when its name is not in the list; a collection that is
    listed is never created again. *)
Theorem ensureCollection_creates_only_when_missing (b : Boot)
    (names : list string) (s1 : Store) :
  store_getCollections (boot_store b) = (inr (collections_answer names), s1) →
  admin_calls (boot_new b (snd (ensureCollection b))) =
    admin_getCollections
    :: (if bool_decide (COLLECTION_NAME ∈ names) then []
        else [admin_createCollection COLLECTION_NAME
                (VObj [("vectors",
                        VObj [("size", VECTOR_SIZE); ("distance", VStr "Cosine")])])]) ∧
  (COLLECTION_NAME ∈ names →
   fst (ensureCollection b) = inr tt ∧ boot_store (snd (ensureCollection b)) = s1) ∧
  (COLLECTION_NAME ∉ names →
   fst (ensureCollection b) = fst (store_createCollection s1 COLLECTION_NAME collection_config) ∧
   boot_store (snd (ensureCollection b)) =
     snd (store_createCollection s1 COLLECTION_NAME collection_config)).
Proof.
  intros Hanswer. unfold ensureCollection. rewrite Hanswer.
  unfold collection_listed, collections_answer. simpl.
  rewrite some_named_listed.
  destruct (bool_decide_reflect (COLLECTION_NAME ∈ names)) as [Hin|Hnin]; simpl.
  - split; [|split; [done|done]].
    erewrite boot_new_app; [|simpl; rewrite <- app_assoc; reflexivity]. done.
  - destruct (store_createCollection s1 COLLECTION_NAME collection_config)
      as [[e|[]] s2]; simpl.
    + split; [|split; [done|done]].
      erewrite boot_new_app; [|simpl; rewrite <- !app_assoc; reflexivity]. done.
    + split; [|split; [done|done]].
      erewrite boot_new_app; [|simpl; rewrite <- !app_assoc; reflexivity]. done.
Qed.



(** [some] stops at the first collection with the name: entries after it
    are not inspected, so a later [null] entry does no harm, while one before
    it makes the check throw. *)
Theorem some_named_stops_at_first_match (name : string)
    (before after : list string) (junk : list jsval) :
  name ∉ before →
  some_named name
    (map (fun n => VObj [("name", VStr n)]) before
     ++ VObj [("name", VStr name)] :: junk) = inr true ∧
  some_named name
    (map (fun n => VObj [("name", VStr n)]) before
     ++ VNull :: map (fun n => VObj [("name", VStr n)]) after) =
    inl (TypeError "Cannot read properties of null (reading 'name')").
Proof.
  intros Hnin. induction before as [|n before IH]; simpl.
  - by rewrite String.eqb_refl.
  - apply not_elem_of_cons in Hnin as [Hne Hnin].
    destruct (String.eqb_spec n name) as [->|_]; [done|].
    by apply IH.
Qed.

End BootFacts.

(** ** The embedding client *)

Section Client.

Context `{Collaborators}.

Lemma stable_pure {A : Type} (m : M A) :
  (∀ w, trace (snd (m w)) = trace w ∧
        initialized (snd (m w)) = initialized w ∧
        model (snd (m w)) = model w) →
  client_stable m.
Proof.
  intros Hm w. destruct (Hm w) as (Htr & Hi & Hmod).
  exists []. rewrite app_nil_r. split; [done|]. split.
  - unfold client_ok. by rewrite Hi, Hmod.
  - intros Hinit. by rewrite Hi, Hmod.
Qed.

Lemma stable_event {A : Type} (m : M A) (ev : World → Event) :
  (∀ w, trace (snd (m w)) = trace w ++ [ev w] ∧
        is_create_call (ev w) = false ∧
        initialized (snd (m w)) = initialized w ∧
        model (snd (m w)) = model w) →
  client_stable m.
Proof.
  intros Hm w. destruct (Hm w) as (Htr & Hev & Hi & Hmod).
  exists [ev w]. split; [done|]. split.
  - unfold client_ok. by rewrite Hi, Hmod.
  - intros Hinit. rewrite Hi, Hmod. repeat split; try done.
    by constructor.
Qed.

Lemma stable_bind {A B : Type} (m : M A) (k : A → M B) :
  client_stable m → (∀ a, client_stable (k a)) → client_stable (bind m k).
Proof.
  intros Hm Hk w. destruct (Hm w) as (evs & Htr & Hok & Hinit).
  unfold bind. destruct (m w) as [[e|a] w1]; simpl in *.
  - exists evs. split; [done|]. by split.
  - destruct (Hk a w1) as (evs2 & Htr2 & Hok2 & Hinit2).
    exists (evs ++ evs2). split; [by rewrite Htr2, Htr, app_assoc|].
    split; [by intros ?; apply Hok2, Hok|].
    intros Hw. destruct (Hinit Hw) as (Hi1 & Hm1 & Hc1).
    destruct (Hinit2 Hi1) as (Hi2 & Hm2 & Hc2).
    repeat split; [done|by rewrite Hm2|by apply Forall_app].
Qed.

Lemma stable_rethrow {A : Type} (m : M A) (line : string) :
  client_stable m →
  client_stable
    (try_catch m (fun error => bind (console_error line error) (fun _ => throw error))).
Proof.
  intros Hm w. destruct (Hm w) as (evs & Htr & Hok & Hinit).
  unfold try_catch. destruct (m w) as [[e|a] w1]; simpl in *.
  - exists (evs ++ [EvError line e]). split; [by rewrite Htr, app_assoc|].
    split; [done|]. intros Hw. destruct (Hinit Hw) as (Hi1 & Hm1 & Hc1).
    repeat split; try done. apply Forall_app. split; [done|].
    by repeat constructor.
  - exists evs. split; [done|]. by split.
Qed.

Lemma stable_ret {A : Type} (a : A) : client_stable (ret a).
Proof. by apply stable_pure. Qed.

Lemma stable_lift {A : Type} (r : Error + A) : client_stable (lift r).
Proof. by apply stable_pure. Qed.

Lemma stable_qdrant {A : Type} (c : Call) (op : Store → (Error + A) * Store) :
  is_embedding_call c = false → client_stable (qdrant c op).
Proof.
  intros Hc. unfold qdrant.
  apply (stable_event _ (fun w => EvCall c (failure_of (fst (op (store w)))))).
  intros w. destruct (op (store w)) as [r s']; simpl.
  repeat split; try done. by destruct c.
Qed.

Lemma stable_init : client_stable init.
Proof.
  intros w. unfold init, client_ok.
  destruct (initialized w) eqn:Hinit; simpl.
  { exists []. rewrite app_nil_r. by rewrite Hinit. }
  unfold bind, console_log, emit, FastEmbed_create_call; simpl.
  destruct (create_model modelName) as [e|m]; simpl.
  - eexists [_; _]. rewrite <- app_assoc. split; [reflexivity|].
    rewrite Hinit. by split.
  - eexists [_; _; _]. rewrite <- !app_assoc. split; [reflexivity|].
    split; [by intros _ _; eexists|done].
Qed.

Lemma stable_model_embed (texts : list string) :
  client_stable (this_model_embed texts).
Proof.
  intros w. unfold this_model_embed. destruct (model w) as [m|] eqn:Hmodel.
  - eexists [_]. simpl. split; [reflexivity|].
    unfold client_ok; simpl. rewrite Hmodel.
    repeat split; try done. by repeat constructor.
  - exists []. simpl. rewrite app_nil_r. split; [done|].
    unfold client_ok; simpl. by split.
Qed.

Lemma stable_embed (text : string) : client_stable (embed text).
Proof.
  unfold embed. apply stable_bind; [apply stable_init|intros _].
  apply stable_rethrow.
  apply stable_bind; [apply stable_model_embed|intros ?; apply stable_ret].
Qed.

Lemma stable_embedBatch (texts : list string) : client_stable (embedBatch texts).
Proof.
  unfold embedBatch. apply stable_bind; [apply stable_init|intros _].
  apply stable_rethrow, stable_model_embed.
Qed.

Lemma stable_batch_points (items : list BatchItem) (embeddings : list jsval)
    (index : nat) :
  client_stable (batch_points items embeddings index).
Proof.
  revert index. induction items as [|item rest IH]; intros index; simpl.
  - apply stable_ret.
  - apply stable_bind.
    { unfold id_or_randomUUID. destruct (truthy_string (bi_id item)).
      - apply stable_ret.
      - by apply stable_pure. }
    intros id. apply stable_bind; [by apply stable_pure|intros ts].
    apply stable_bind; [apply IH|intros ps; apply stable_ret].
Qed.

Lemma stable_tool_body (c : ToolCall) :
  ∃ (body : M ToolResult) (what : string),
    client_stable body ∧ call_tool c = tool_try body what.
Proof.
  destruct c as [a|a|a|a|n| |a]; simpl.
  - exists (store_body a), "storing information". split; [|done].
    unfold store_body.
    apply stable_bind; [apply stable_embed|intros embedding].
    apply stable_bind; [by apply stable_pure|intros id].
    apply stable_bind; [by apply stable_pure|intros ts].
    apply stable_bind; [by apply stable_qdrant|intros ?; apply stable_ret].
  - exists (items_result (find_items a)), "searching information".
    split; [|done]. unfold items_result, find_items.
    apply stable_bind; [|intros ?; apply stable_ret].
    apply stable_bind; [apply stable_embed|intros embedding].
    apply stable_bind; [by apply stable_qdrant|intros ?; apply stable_lift].
  - exists (items_result (hybrid_items a)), "performing hybrid search".
    split; [|done]. unfold items_result, hybrid_items.
    apply stable_bind; [|intros ?; apply stable_ret].
    apply stable_bind; [apply stable_embed|intros embedding].
    apply stable_bind; [by apply stable_qdrant|intros ?; apply stable_lift].
  - exists (items_result (filtered_items a)), "performing filtered search".
    split; [|done]. unfold items_result, filtered_items.
    apply stable_bind; [|intros ?; apply stable_ret].
    apply stable_bind.
    { destruct (default_to true (fs_use_vector a) && truthy_string (fs_query a)).
      - apply stable_bind; [apply stable_embed|intros ?; apply stable_ret].
      - apply stable_ret. }
    intros vector.
    apply stable_bind; [by apply stable_qdrant|intros ?; apply stable_lift].
  - exists (collection_stats_body n), "getting collection stats".
    split; [|done]. unfold collection_stats_body.
    apply stable_bind; [by apply stable_qdrant|intros ?; apply stable_ret].
  - exists list_collections_body, "listing collections".
    split; [|done]. unfold list_collections_body.
    apply stable_bind; [by apply stable_qdrant|intros ?; apply stable_ret].
  - exists (batch_store_body a), "batch storing information".
    split; [|done]. unfold batch_store_body.
    apply stable_bind; [apply stable_embedBatch|intros embeddings].
    apply stable_bind; [apply stable_batch_points|intros points].
    apply stable_bind; [by apply stable_qdrant|intros ?; apply stable_ret].
Qed.

Lemma stable_call_tool (c : ToolCall) (w : World) :
  ∃ events,
    trace (snd (call_tool c w)) = trace w ++ events ∧
    (client_ok w → client_ok (snd (call_tool c w))) ∧
    (initialized w = true →
     initialized (snd (call_tool c w)) = true ∧
     model (snd (call_tool c w)) = model w ∧
     Forall (fun ev => is_create_call ev = false) events).
Proof.
  destruct (stable_tool_body c) as (body & what & Hbody & ->).
  destruct (Hbody w) as (evs & Htr & Hok & Hinit).
  unfold tool_try. destruct (body w) as [[e|r] w1]; simpl in *.
  - eexists (evs ++ [_]). rewrite Htr, <- app_assoc. split; [reflexivity|].
    split; [done|]. intros Hw. destruct (Hinit Hw) as (? & ? & ?).
    repeat split; try done. apply Forall_app. split; [done|].
    by repeat constructor.
  - exists evs. split; [done|]. by split.
Qed.

(** [init] does nothing once [this.initialized] is set: a tool invocation
    that finds the client initialised makes no [FastEmbed.create] call and
    leaves the client initialised.  The flag is set only after the creation
    has returned, so this says nothing of invocations that start before a
    first initialisation is over. *)
Theorem initialised_client_creates_no_model (c : ToolCall) (w : World) :
  initialized w = true →
  Forall (fun ev => is_create_call ev = false) (new_events w (snd (call_tool c w))) ∧
  initialized (snd (call_tool c w)) = true.
Proof.
  intros Hinit. destruct (stable_call_tool c w) as (evs & Htr & _ & Hkeep).
  destruct (Hkeep Hinit) as (Hi & _ & Hc).
  unfold new_events. rewrite Htr, drop_app_length. done.
Qed.

(** Every tool invocation keeps the client consistent: if a client that is
    initialised holds a model before the call, it does so after it.  The
    client of a fresh process, not yet initialised, is consistent. *)
Theorem tools_keep_the_client_consistent (c : ToolCall) (w : World) :
  client_ok w → client_ok (snd (call_tool c w)).
Proof.
  intros Hok. destruct (stable_call_tool c w) as (evs & _ & Hkeep & _).
  by apply Hkeep.
Qed.

(** When the client is consistent, whatever [embed] throws was thrown by
    the embedding collaborator, by [FastEmbed.create] or by [model.embed],
    in this very call: [embed] has no failure of its own. *)
Theorem embed_errors_come_from_the_model (text : string) (w : World) (e : Error) :
  client_ok w →
  fst (embed text w) = inl e →
  ∃ call,
    is_embedding_call call = true ∧
    EvCall call (Some e) ∈ new_events w (snd (embed text w)).
Proof.
  intros Hok. unfold embed, bind, try_catch, init.
  destruct (initialized w) eqn:Hinit; simpl.
  - destruct (Hok Hinit) as [m Hm]. unfold this_model_embed. rewrite Hm.
    destruct (embed_with m [text]) as [e0|embs]; simpl; [|done].
    intros [= ->]. exists (model_embed [text]). split; [done|].
    erewrite new_events_app; [|simpl; rewrite <- ?app_assoc; reflexivity].
    by left.
  - unfold bind, console_log, emit, FastEmbed_create_call; simpl.
    destruct (create_model modelName) as [e0|m]; simpl.
    + intros [= ->]. exists (FastEmbed_create modelName). split; [done|].
      erewrite new_events_app; [|simpl; rewrite <- ?app_assoc; reflexivity].
      right. by left.
    + unfold this_model_embed; simpl.
      destruct (embed_with m [text]) as [e0|embs]; simpl; [|done].
      intros [= ->]. exists (model_embed [text]). split; [done|].
      erewrite new_events_app; [|simpl; rewrite <- ?app_assoc; reflexivity].
      do 3 right. by left.
Qed.

(** A [FastEmbed.create] that throws leaves the client uninitialised and
    without a new model: [embed] throws that error before any
    [model.embed], and the next call will try to create the model again. *)
Theorem failed_model_creation_is_retried (text : string) (w : World) (e : Error) :
  initialized w = false →
  create_model modelName = inl e →
  fst (embed text w) = inl e ∧
  initialized (snd (embed text w)) = false ∧
  model (snd (embed text w)) = model w ∧
  trace (snd (embed text w)) =
    trace w
    ++ [EvLog ("Initializing FastEmbed with model: " ++ modelName);
        EvCall (FastEmbed_create modelName) (Some e)].
Proof.
  intros Hinit Hcreate. unfold embed, bind, try_catch, init.
  rewrite Hinit. unfold bind, console_log, emit, FastEmbed_create_call; simpl.
  rewrite Hcreate. simpl. by rewrite <- app_assoc.
Qed.

(** [embed(text)] is [embedBatch([text])] followed by [embeddings[0]]: the
    same calls to the collaborator, the same error when one throws, and
    [undefined] when the model answers with an empty array. *)
Theorem embed_is_first_of_embedBatch (text : string) (w : World) :
  fst (embed text w) = first_embedding (fst (embedBatch [text] w)) ∧
  calls_of (trace (snd (embed text w))) =
    calls_of (trace (snd (embedBatch [text] w))) ∧
  initialized (snd (embed text w)) = initialized (snd (embedBatch [text] w)) ∧
  model (snd (embed text w)) = model (snd (embedBatch [text] w)).
Proof.
  unfold embed, embedBatch, bind, try_catch.
  destruct (init w) as [[e|[]] w1]; simpl; [done|].
  destruct (this_model_embed [text] w1) as [[e|embs] w2]; simpl; [|done].
  by rewrite !calls_of_app.
Qed.

End Client.

(** ** More on the tools *)

Section MoreTools.

Context `{Collaborators}.

Lemma slice0_is_take {A : Type} (l : list A) (e : Z) :
  ∃ n, slice0 l e = take n l ∧ ((0 ≤ e)%Z → (n ≤ Z.to_nat e)%nat).
Proof.
  unfold slice0. destruct (Z.ltb_spec e 0) as [Hneg|Hpos].
  - eexists. split; [reflexivity|lia].
  - eexists. split; [reflexivity|lia].
Qed.

(** A successful hybrid-search returns the formatting of a prefix of the
    store's answer: the points are in the store's order, with the store's
    scores, and for limit ≥ 0 there are at most [limit] of them, however many
    the store returned. *)
Theorem hybrid_search_returns_a_prefix_of_the_answer (a : HybridArgs)
    (w : World) (items : list jsval) :
  fst (hybrid_items a w) = inr items →
  ∃ embedding w1 results s' n,
    embed (h_query a) w = (inr embedding, w1) ∧
    store_search (store w1) COLLECTION_NAME (hybrid_params embedding a) =
      (inr results, s') ∧
    format_results (take n results) = inr items ∧
    map score_of items = map sp_score (take n results) ∧
    (length items ≤ length results)%nat ∧
    ((0 ≤ default_to 10 (h_limit a))%Z →
     (length items ≤ Z.to_nat (default_to 10%Z (h_limit a)))%nat).
Proof.
  unfold hybrid_items, bind.
  destruct (embed (h_query a) w) as [[e|embedding] w1]; [done|].
  unfold qdrantClient_search, qdrant.
  destruct (store_search (store w1) COLLECTION_NAME (hybrid_params embedding a))
    as [[e|results] s'] eqn:Hsearch; [done|].
  simpl. intros Hfmt.
  destruct (slice0_is_take results (default_to 10%Z (h_limit a))) as (n & Hn & Hle).
  rewrite Hn in Hfmt.
  destruct (format_results_inv _ _ Hfmt) as (Hlen & _ & Hscores).
  exists embedding, w1, results, s', n.
  rewrite length_take in Hlen.
  repeat split; try done; [lia|]. intros Hpos. specialize (Hle Hpos). lia.
Qed.

(** find hands its limit (5 when absent) to the store and formats every
    point the store answers: nothing is cut locally, so the result has as
    many items as the answer, in the same order and with the same scores. *)
Theorem find_returns_the_whole_answer (a : FindArgs) (w : World)
    (items : list jsval) :
  fst (find_items a w) = inr items →
  ∃ embedding w1 results s',
    embed (f_query a) w = (inr embedding, w1) ∧
    store_search (store w1) COLLECTION_NAME (find_params embedding a) =
      (inr results, s') ∧
    q_limit (find_params embedding a) = default_to 5%Z (f_limit a) ∧
    format_results results = inr items ∧
    length items = length results ∧
    map score_of items = map sp_score results.
Proof.
  unfold find_items, bind.
  destruct (embed (f_query a) w) as [[e|embedding] w1]; [done|].
  unfold qdrantClient_search, qdrant.
  destruct (store_search (store w1) COLLECTION_NAME (find_params embedding a))
    as [[e|results] s'] eqn:Hsearch; [done|].
  simpl. intros Hfmt.
  destruct (format_results_inv _ _ Hfmt) as (Hlen & _ & Hscores).
  exists embedding, w1, results, s'. by repeat split.
Qed.

(** filtered-search with [use_vector] false, or without a query, or with
    the empty string as query, searches by filter alone: it makes one call,
    the search, which carries no vector, and it does not touch the embedding
    client (a model not yet created stays so). *)
Theorem filtered_search_without_query_embeds_nothing (a : FilteredArgs)
    (w : World) :
  fs_use_vector a = Some false ∨ fs_query a = None ∨ fs_query a = Some "" →
  calls_of (new_events w (snd (qdrant_filtered_search a w))) =
    [qdrant_search COLLECTION_NAME
       {| q_vector := None;
          q_limit := default_to 10%Z (fs_limit a);
          q_filter := Some (fs_filters a);
          q_with_payload := Some true;
          q_query_text := None;
          q_score_threshold := None;
          q_params := None |}] ∧
  initialized (snd (qdrant_filtered_search a w)) = initialized w ∧
  model (snd (qdrant_filtered_search a w)) = model w.
Proof.
  intros Hcond.
  assert (default_to true (fs_use_vector a) && truthy_string (fs_query a) = false)
    as Hno.
  { destruct Hcond as [Hc | [Hc | Hc]]; rewrite Hc; [done| |];
      by destruct (default_to true (fs_use_vector a)). }
  unfold qdrant_filtered_search, tool_try, items_result, filtered_items, bind.
  rewrite Hno. simpl. unfold qdrantClient_search, qdrant, filtered_params.
  destruct (store_search _ _ _) as [[e|results] s']; simpl.
  - split; [|done].
    erewrite new_events_app; [|simpl; rewrite <- ?app_assoc; reflexivity]. done.
  - destruct (format_results results) as [e|items]; simpl.
    + split; [|done].
      erewrite new_events_app; [|simpl; rewrite <- ?app_assoc; reflexivity]. done.
    + split; [|done].
      erewrite new_events_app; [|simpl; reflexivity]. done.
Qed.

(** filtered-search with a non-empty query and [use_vector] true or absent
    embeds the query and searches with that vector and the filter. *)
Theorem filtered_search_with_query_embeds_it (a : FilteredArgs) (w w1 : World)
    (query : string) (embedding : jsval) :
  fs_use_vector a ≠ Some false →
  fs_query a = Some query →
  query ≠ "" →
  embed query w = (inr embedding, w1) →
  calls_of (new_events w (snd (qdrant_filtered_search a w))) =
    calls_of (init_events w)
    ++ [model_embed [query];
        qdrant_search COLLECTION_NAME
          {| q_vector := Some embedding;
             q_limit := default_to 10%Z (fs_limit a);
             q_filter := Some (fs_filters a);
             q_with_payload := Some true;
             q_query_text := None;
             q_score_threshold := None;
             q_params := None |}].
Proof.
  intros Huse Hquery Hne Hembed.
  destruct (embed_run query w) as [_ Htr].
  rewrite Hembed in Htr. simpl in Htr. specialize (Htr embedding eq_refl).
  assert (default_to true (fs_use_vector a) && truthy_string (fs_query a) = true)
    as Hyes.
  { rewrite Hquery. simpl.
    assert (String.eqb query "" = false) as -> by (by apply String.eqb_neq).
    destruct (fs_use_vector a) as [[|]|]; done. }
  unfold qdrant_filtered_search, tool_try, items_result, filtered_items, bind.
  rewrite Hyes, Hquery. simpl. rewrite Hembed. simpl.
  unfold qdrantClient_search, qdrant, filtered_params.
  destruct (store_search _ _ _) as [[e|results] s']; simpl.
  - erewrite new_events_app; [|simpl; rewrite Htr, <- ?app_assoc; reflexivity].
    by rewrite !calls_of_app.
  - destruct (format_results results) as [e|items]; simpl.
    + erewrite new_events_app; [|simpl; rewrite Htr, <- ?app_assoc; reflexivity].
      by rewrite !calls_of_app.
    + erewrite new_events_app; [|simpl; rewrite Htr, <- ?app_assoc; reflexivity].
      by rewrite !calls_of_app.
Qed.

(** collection-stats and list-collections only read: each makes one call
    to the store, with the name as given, none to the embedding client, draws
    no UUID, and returns the store's answer serialised as it is, or the
    store's error. *)
Theorem collection_tools_relay_the_store (collection : string) (w : World) :
  (calls_of (new_events w (snd (qdrant_collection_stats collection w))) =
     [qdrant_getCollection collection] ∧
   fst (qdrant_collection_stats collection w) =
     match fst (store_getCollection (store w) collection) with
     | inr stats => text_result (JSON_stringify stats)
     | inl error =>
         error_result ("Error getting collection stats: " ++ message error)%string
     end ∧
   initialized (snd (qdrant_collection_stats collection w)) = initialized w ∧
   uuid_draws (snd (qdrant_collection_stats collection w)) = uuid_draws w) ∧
  (calls_of (new_events w (snd (qdrant_list_collections w))) =
     [qdrant_getCollections] ∧
   fst (qdrant_list_collections w) =
     match fst (store_getCollections (store w)) with
     | inr collections => text_result (JSON_stringify collections)
     | inl error =>
         error_result ("Error listing collections: " ++ message error)%string
     end ∧
   initialized (snd (qdrant_list_collections w)) = initialized w ∧
   uuid_draws (snd (qdrant_list_collections w)) = uuid_draws w).
Proof.
  split.
  - unfold qdrant_collection_stats, tool_try, collection_stats_body, bind,
      qdrantClient_getCollection, qdrant.
    destruct (store_getCollection (store w) collection) as [[e|stats] s']; simpl.
    + split; [|done].
      erewrite new_events_app; [|simpl; rewrite <- ?app_assoc; reflexivity]. done.
    + split; [|done].
      erewrite new_events_app; [|simpl; reflexivity]. done.
  - unfold qdrant_list_collections, tool_try, list_collections_body, bind,
      qdrantClient_getCollections, qdrant.
    destruct (store_getCollections (store w)) as [[e|collections] s']; simpl.
    + split; [|done].
      erewrite new_events_app; [|simpl; rewrite <- ?app_assoc; reflexivity]. done.
    + split; [|done].
      erewrite new_events_app; [|simpl; reflexivity]. done.
Qed.

Lemma appends_silent {A : Type} (P : Event → Prop) (m : M A) :
  (∀ w, trace (snd (m w)) = trace w) → appends P m.
Proof. intros Hm w. exists []. by rewrite app_nil_r, Hm. Qed.

Lemma appends_bind {A B : Type} (P : Event → Prop) (m : M A) (k : A → M B) :
  appends P m → (∀ a, appends P (k a)) → appends P (bind m k).
Proof.
  intros Hm Hk w. destruct (Hm w) as (evs & Htr & Hall).
  unfold bind. destruct (m w) as [[e|a] w1]; simpl in *.
  - by exists evs.
  - destruct (Hk a w1) as (evs2 & Htr2 & Hall2).
    exists (evs ++ evs2). split; [by rewrite Htr2, Htr, app_assoc|].
    by apply Forall_app.
Qed.

Lemma appends_rethrow {A : Type} (P : Event → Prop) (m : M A) (line : string) :
  (∀ e, P (EvError line e)) →
  appends P m →
  appends P
    (try_catch m (fun error => bind (console_error line error) (fun _ => throw error))).
Proof.
  intros HP Hm w. destruct (Hm w) as (evs & Htr & Hall).
  unfold try_catch. destruct (m w) as [[e|a] w1]; simpl in *.
  - exists (evs ++ [EvError line e]). split; [by rewrite Htr, app_assoc|].
    apply Forall_app. split; [done|]. by repeat constructor.
  - by exists evs.
Qed.

Lemma appends_qdrant {A : Type} (P : Event → Prop) (c : Call)
    (op : Store → (Error + A) * Store) :
  (∀ failure, P (EvCall c failure)) → appends P (qdrant c op).
Proof.
  intros HP w. unfold qdrant. destruct (op (store w)) as [r s'].
  eexists [_]. split; [reflexivity|]. by repeat constructor.
Qed.

Lemma appends_batch_points (P : Event → Prop) (items : list BatchItem)
    (embeddings : list jsval) (index : nat) :
  appends P (batch_points items embeddings index).
Proof.
  apply appends_silent. intros w.
  destruct (batch_points_run items embeddings index w) as (ps & w2 & -> & Htr & _).
  done.
Qed.

Lemma appends_init (P : Event → Prop) :
  (∀ line, P (EvLog line)) →
  (∀ failure, P (EvCall (FastEmbed_create modelName) failure)) →
  appends P init.
Proof.
  intros Hlog Hcreate w. unfold init. destruct (initialized w); simpl.
  { exists []. by rewrite app_nil_r. }
  unfold bind, console_log, emit, FastEmbed_create_call; simpl.
  destruct (create_model modelName) as [e|m]; simpl.
  - eexists [_; _]. rewrite <- app_assoc. split; [reflexivity|].
    by repeat constructor.
  - eexists [_; _; _]. rewrite <- !app_assoc. split; [reflexivity|].
    by repeat constructor.
Qed.

Lemma appends_model_embed (P : Event → Prop) (texts : list string) :
  (∀ failure, P (EvCall (model_embed texts) failure)) →
  appends P (this_model_embed texts).
Proof.
  intros HP w. unfold this_model_embed. destruct (model w) as [m|]; simpl.
  - eexists [_]. split; [reflexivity|]. by repeat constructor.
  - exists []. by rewrite app_nil_r.
Qed.

Lemma embedBatch_no_store_call (texts : list string) :
  appends (fun ev => is_store_call ev = false) (embedBatch texts).
Proof.
  unfold embedBatch. apply appends_bind; [by apply appends_init|intros _].
  apply appends_rethrow; [done|]. by apply appends_model_embed.
Qed.

(** What follows the embedding in a tool never records a failed embedding
    call. *)
Lemma store_call_is_no_embedding_failure {A : Type} (c : Call)
    (op : Store → (Error + A) * Store) :
  is_embedding_call c = false →
  appends (fun ev => is_embedding_failure ev = false) (qdrant c op).
Proof.
  intros Hc. apply appends_qdrant. intros [e|]; simpl; done.
Qed.

(** The heart of the matter: an embedding step [m], then a tail [k] that
    makes no embedding call.  If the run records a failed embedding call,
    the tail did not run. *)
Lemma embedding_then_tail {A B : Type} (m : M A) (k : A → M B) (w : World) :
  reports_failures m →
  appends (fun ev => is_store_call ev = false) m →
  same_resources w (snd (m w)) →
  (∀ a, appends (fun ev => is_embedding_failure ev = false) (k a)) →
  ∃ events,
    trace (snd (bind m k w)) = trace w ++ events ∧
    (Exists (fun ev => is_embedding_failure ev = true) events →
     same_resources w (snd (bind m k w)) ∧
     Forall (fun ev => is_store_call ev = false) events).
Proof.
  intros Hrep Hquiet Hsame Htail.
  destruct (Hrep w) as (evs & Htr & Hfail).
  destruct (Hquiet w) as (evs' & Htr' & Hall).
  assert (evs' = evs) as ->.
  { rewrite Htr in Htr'. by apply app_inv_head in Htr'. }
  unfold bind. destruct (m w) as [[e|a] w1]; simpl in *.
  { exists evs. by split. }
  destruct (Htail a w1) as (evs2 & Htr2 & Hall2).
  exists (evs ++ evs2). split; [by rewrite Htr2, Htr, app_assoc|].
  intros Hex. exfalso. apply Exists_app in Hex as [Hex|Hex].
  - apply Exists_exists in Hex as (ev & Hin & Hev).
    destruct ev as [c [e|]| |]; try done.
    by specialize (Hfail c e Hin).
  - apply Exists_exists in Hex as (ev & Hin & Hev).
    rewrite Forall_forall in Hall2. specialize (Hall2 ev Hin). congruence.
Qed.

Lemma snd_bind_ret {A B : Type} (m : M A) (f : A → B) (w : World) :
  snd (bind m (fun a => ret (f a)) w) = snd (m w).
Proof. unfold bind, ret. by destruct (m w) as [[e|a] w1]. Qed.

Lemma tail_of_store (embedding : jsval) (a : StoreArgs) :
  appends (fun ev => is_embedding_failure ev = false)
    (bind crypto_randomUUID (fun id =>
       bind new_Date_toISOString (fun timestamp =>
         bind (qdrantClient_upsert COLLECTION_NAME
                 [mkPoint id embedding
                    (mkPayload (st_information a)
                       (default_to (VObj []) (st_metadata a)) timestamp)])
           (fun _ =>
              ret (text_result
                     (JSON_stringify
                        (VObj [("success", VBool true); ("id", VStr id)]))))))).
Proof.
  apply appends_bind; [by apply appends_silent|intros id].
  apply appends_bind; [by apply appends_silent|intros ts].
  apply appends_bind; [by apply store_call_is_no_embedding_failure|intros _].
  by apply appends_silent.
Qed.

Lemma tail_of_search (p : SearchParams) (cut : list ScoredPoint → list ScoredPoint) :
  appends (fun ev => is_embedding_failure ev = false)
    (bind (qdrantClient_search COLLECTION_NAME p)
       (fun results => lift (format_results (cut results)))).
Proof.
  apply appends_bind; [by apply store_call_is_no_embedding_failure|intros results].
  by apply appends_silent.
Qed.

(** Each tool body, from any world: if its run records a failed embedding
    call, it used no resource and made no store call. *)
Lemma body_after_embedding_failure (c : ToolCall) (w : World) :
  ∃ (body : M ToolResult) (what : string),
    call_tool c = tool_try body what ∧
    ∃ events : list Event,
      trace (snd (body w)) = trace w ++ events ∧
      (Exists (fun ev => is_embedding_failure ev = true) events →
       same_resources w (snd (body w)) ∧
       Forall (fun ev => is_store_call ev = false) events).
Proof.
  destruct c as [a|a|a|a|n| |a]; simpl.
  - exists (store_body a), "storing information".
    split; [done|].
    destruct (embedding_then_tail (embed (st_information a))
                (fun embedding =>
                   bind crypto_randomUUID (fun id =>
                     bind new_Date_toISOString (fun timestamp =>
                       bind (qdrantClient_upsert COLLECTION_NAME
                               [mkPoint id embedding
                                  (mkPayload (st_information a)
                                     (default_to (VObj []) (st_metadata a))
                                     timestamp)])
                         (fun _ =>
                            ret (text_result
                                   (JSON_stringify
                                      (VObj [("success", VBool true);
                                             ("id", VStr id)])))))))
                w (reports_embed _) (embed_no_store_call _)
                (proj1 (embed_run _ w)) (fun e => tail_of_store e a))
      as (evs & Htr & Hevs).
    by exists evs.
  - exists (items_result (find_items a)), "searching information".
    split; [done|].
    destruct (embedding_then_tail (embed (f_query a))
                (fun embedding =>
                   bind (qdrantClient_search COLLECTION_NAME (find_params embedding a))
                     (fun results => lift (format_results results)))
                w (reports_embed _) (embed_no_store_call _)
                (proj1 (embed_run _ w)) (fun e => tail_of_search _ (fun r => r)))
      as (evs & Htr & Hevs).
    exists evs. unfold items_result. rewrite snd_bind_ret. by split.
  - exists (items_result (hybrid_items a)), "performing hybrid search".
    split; [done|].
    destruct (embedding_then_tail (embed (h_query a))
                (fun embedding =>
                   bind (qdrantClient_search COLLECTION_NAME (hybrid_params embedding a))
                     (fun results =>
                        lift (format_results
                                (slice0 results (default_to 10%Z (h_limit a))))))
                w (reports_embed _) (embed_no_store_call _)
                (proj1 (embed_run _ w))
                (fun e => tail_of_search _
                            (fun r => slice0 r (default_to 10%Z (h_limit a)))))
      as (evs & Htr & Hevs).
    exists evs. unfold items_result. rewrite snd_bind_ret. by split.
  - exists (items_result (filtered_items a)), "performing filtered search".
    split; [done|].
    unfold items_result. rewrite snd_bind_ret. unfold filtered_items.
    destruct (default_to true (fs_use_vector a) && truthy_string (fs_query a)).
    + destruct (embedding_then_tail
                  (bind (embed (default_to "" (fs_query a)))
                     (fun embedding => ret (Some embedding)))
                  (fun vector =>
                     bind (qdrantClient_search COLLECTION_NAME (filtered_params vector a))
                       (fun results => lift (format_results results)))
                  w)
        as (evs & Htr & Hevs).
      * apply reports_bind; [apply reports_embed|intros ?; apply reports_ret].
      * apply appends_bind; [exact (embed_no_store_call _)|intros ?].
        by apply appends_silent.
      * rewrite snd_bind_ret. apply embed_run.
      * intros vector. apply (tail_of_search _ (fun r => r)).
      * by exists evs.
    + destruct (embedding_then_tail (ret None)
                  (fun vector =>
                     bind (qdrantClient_search COLLECTION_NAME (filtered_params vector a))
                       (fun results => lift (format_results results)))
                  w)
        as (evs & Htr & Hevs).
      * apply reports_ret.
      * by apply appends_silent.
      * done.
      * intros vector. apply (tail_of_search _ (fun r => r)).
      * by exists evs.
  - exists (collection_stats_body n), "getting collection stats".
    split; [done|].
    assert (appends (fun ev => is_embedding_failure ev = false)
              (collection_stats_body n)) as Happ.
    { unfold collection_stats_body.
      apply appends_bind; [by apply store_call_is_no_embedding_failure|intros ?].
      by apply appends_silent. }
    destruct (Happ w) as (evs & Htr & Hall).
    exists evs. split; [done|].
    intros Hex. apply Exists_exists in Hex as (ev & Hin & Hev).
    rewrite Forall_forall in Hall. specialize (Hall ev Hin). congruence.
  - exists list_collections_body, "listing collections".
    split; [done|].
    assert (appends (fun ev => is_embedding_failure ev = false)
              list_collections_body) as Happ.
    { unfold list_collections_body.
      apply appends_bind; [by apply store_call_is_no_embedding_failure|intros ?].
      by apply appends_silent. }
    destruct (Happ w) as (evs & Htr & Hall).
    exists evs. split; [done|].
    intros Hex. apply Exists_exists in Hex as (ev & Hin & Hev).
    rewrite Forall_forall in Hall. specialize (Hall ev Hin). congruence.
  - exists (batch_store_body a), "batch storing information".
    split; [done|].
    unfold batch_store_body.
    destruct (embedding_then_tail (embedBatch (map bi_information (b_items a)))
                (fun embeddings =>
                   bind (batch_points (b_items a) embeddings 0) (fun points =>
                     bind (qdrantClient_upsert
                             (default_to COLLECTION_NAME (b_collection_name a)) points)
                       (fun _ =>
                          ret (text_result
                                 (JSON_stringify (batch_store_reply points))))))
                w (reports_embedBatch _) (embedBatch_no_store_call _)
                (proj1 (embedBatch_run _ w)))
      as (evs & Htr & Hevs).
    { intros embeddings.
      apply appends_bind; [apply appends_batch_points|intros points].
      apply appends_bind; [by apply store_call_is_no_embedding_failure|intros _].
      by apply appends_silent. }
    by exists evs.
Qed.

(** When the embedding collaborator throws during a tool invocation, the
    invocation does not reach the vector store: it makes no store call,
    leaves the store as it was, draws no UUID and does not read the clock. *)
Theorem embedding_failure_leaves_the_store_untouched (c : ToolCall) (w : World) :
  Exists (fun ev => is_embedding_failure ev = true)
    (new_events w (snd (call_tool c w))) →
  same_resources w (snd (call_tool c w)) ∧
  Forall (fun ev => is_store_call ev = false) (new_events w (snd (call_tool c w))).
Proof.
  destruct (body_after_embedding_failure c w)
    as (body & what & -> & evs & Htr & Hevs).
  unfold tool_try. destruct (body w) as [[e|r] w1]; simpl in *.
  - erewrite new_events_app; [|simpl; rewrite Htr, <- app_assoc; reflexivity].
    intros Hex. apply Exists_app in Hex as [Hex|Hex].
    + destruct (Hevs Hex) as [Hsame Hall]. split; [done|].
      apply Forall_app. split; [done|]. by repeat constructor.
    + apply Exists_cons in Hex as [Hex|Hex]; [done|].
      by apply Exists_nil in Hex.
  - erewrite new_events_app; [|exact Htr]. done.
Qed.

Lemma draws_before_strict (items : list BatchItem) (i j : nat) (item : BatchItem) :
  items !! i = Some item →
  truthy_string (bi_id item) = false →
  (i < j)%nat →
  (draws_before items i < draws_before items j)%nat.
Proof.
  intros Hitem Hid Hij.
  assert (take j items !! i = Some item) as Htake.
  { by rewrite lookup_take_lt. }
  pose proof (draws_before_lt _ _ _ Htake Hid) as Hlt.
  unfold draws_before in *.
  rewrite firstn_all, take_take in Hlt.
  by replace (i `min` j)%nat with i in Hlt by lia.
Qed.

(** batch-store draws one UUID for each item that has no id or an empty
    one, and none for the others, whose id is stored as the client gave it,
    without any check for duplicates. *)
Theorem batch_store_draws_one_uuid_per_missing_id (a : BatchArgs) (w w1 : World)
    (embeddings : list jsval) :
  embedBatch (map bi_information (b_items a)) w = (inr embeddings, w1) →
  uuid_draws (snd (qdrant_batch_store a w)) =
    (uuid_draws w
     + length (filter (fun item => truthy_string (bi_id item) = false) (b_items a)))%nat ∧
  ∃ points : list Point,
    qdrant_upsert (default_to COLLECTION_NAME (b_collection_name a)) points
      ∈ calls_of (new_events w (snd (qdrant_batch_store a w))) ∧
    ∀ i item id,
      b_items a !! i = Some item →
      bi_id item = Some id →
      id ≠ "" →
      pt_id <$> points !! i = Some id.
Proof.
  intros Hembed.
  destruct (batch_store_run a w w1 embeddings Hembed)
    as (points & Hcalls & Hlen & Hps & Hreply & Hdraws).
  split.
  { rewrite Hdraws. unfold draws_before. by rewrite firstn_all. }
  exists points. split.
  { rewrite Hcalls. apply elem_of_app. right. right. by left. }
  intros i item id Hitem Hid Hne.
  destruct (Hps i item Hitem) as (ts & ->). simpl.
  unfold batch_point_id. rewrite Hid. simpl.
  by assert (String.eqb id "" = false) as -> by (by apply String.eqb_neq).
Qed.

(** When [crypto.randomUUID()] never repeats itself, two items of one
    batch that both lack an id are stored under different ids. *)
Theorem batch_store_generated_ids_are_distinct (a : BatchArgs) (w w1 : World)
    (embeddings : list jsval) (i j : nat) (item_i item_j : BatchItem) :
  (∀ m n, randomUUID m = randomUUID n → m = n) →
  embedBatch (map bi_information (b_items a)) w = (inr embeddings, w1) →
  (i < j)%nat →
  b_items a !! i = Some item_i →
  b_items a !! j = Some item_j →
  truthy_string (bi_id item_i) = false →
  truthy_string (bi_id item_j) = false →
  ∃ (points : list Point) (p q : Point),
    qdrant_upsert (default_to COLLECTION_NAME (b_collection_name a)) points
      ∈ calls_of (new_events w (snd (qdrant_batch_store a w))) ∧
    points !! i = Some p ∧
    points !! j = Some q ∧
    pt_id p ≠ pt_id q.
Proof.
  intros Hinj Hembed Hij Hi Hj Hidi Hidj.
  destruct (batch_store_run a w w1 embeddings Hembed)
    as (points & Hcalls & Hlen & Hps & Hreply & Hdraws).
  destruct (Hps i item_i Hi) as (ti & Hpi).
  destruct (Hps j item_j Hj) as (tj & Hpj).
  eexists points, _, _. split.
  { rewrite Hcalls. apply elem_of_app. right. right. by left. }
  split; [exact Hpi|]. split; [exact Hpj|].
  simpl. unfold batch_point_id. rewrite Hidi, Hidj.
  intros Heq. apply Hinj in Heq.
  pose proof (draws_before_strict _ _ _ _ Hi Hidi Hij). lia.
Qed.

(** batch-store does not treat an empty list of items apart: the
    embedding client and the store are still called, with nothing, no UUID is
    drawn, and a successful reply reports 0 items and no ids. *)
Theorem batch_store_of_no_items (a : BatchArgs) (w w1 : World)
    (embeddings : list jsval) :
  b_items a = [] →
  embedBatch [] w = (inr embeddings, w1) →
  calls_of (new_events w (snd (qdrant_batch_store a w))) =
    calls_of (init_events w)
    ++ [model_embed [];
        qdrant_upsert (default_to COLLECTION_NAME (b_collection_name a)) []] ∧
  uuid_draws (snd (qdrant_batch_store a w)) = uuid_draws w ∧
  (isError (fst (qdrant_batch_store a w)) = false →
   fst (qdrant_batch_store a w) =
     text_result
       (JSON_stringify
          (VObj [("success", VBool true);
                 ("message", VStr "Successfully stored 0 items");
                 ("ids", VArr [])]))).
Proof.
  intros Hnone Hembed.
  assert (embedBatch (map bi_information (b_items a)) w = (inr embeddings, w1))
    as Hembed' by (by rewrite Hnone).
  destruct (batch_store_run a w w1 embeddings Hembed')
    as (points & Hcalls & Hlen & Hps & Hreply & Hdraws).
  rewrite Hnone in *. simpl in *. apply nil_length_inv in Hlen. subst points.
  split; [done|]. split.
  - rewrite Hdraws. unfold draws_before. simpl. lia.
  - intros Hok. by rewrite (Hreply Hok).
Qed.

Lemma format_result_payload (r : ScoredPoint) :
  (has_payload r = true → ∃ item, format_result r = inr item) ∧
  (has_payload r = false → ∃ e, format_result r = inl e).
Proof.
  unfold has_payload, format_result.
  destruct (sp_payload r); simpl; split; intros; try done; eauto.
Qed.

(** Formatting succeeds exactly when every point of the answer has a
    payload: one point whose payload is [null] or [undefined] makes the whole
    list fail. *)
Theorem format_results_needs_every_payload (results : list ScoredPoint) :
  (∃ items, format_results results = inr items) ↔
  Forall (fun r => has_payload r = true) results.
Proof.
  induction results as [|r rest IH]; simpl.
  - split; [by constructor|by eexists].
  - destruct (format_result_payload r) as [Hyes Hno].
    destruct (has_payload r) eqn:Hr.
    + destruct (Hyes eq_refl) as (item & ->). split.
      * intros (items & Hitems). constructor; [done|]. apply IH.
        destruct (format_results rest); [done|by eexists].
      * intros Hall. apply Forall_cons in Hall as [_ Hall].
        apply IH in Hall as (items & ->). by eexists.
    + destruct (Hno eq_refl) as (e & ->). split.
      * by intros (items & ?).
      * intros Hall. apply Forall_cons in Hall as [Hbad _]. congruence.
Qed.

Lemma format_results_fails_without_payload (results : list ScoredPoint) :
  Exists (fun r => has_payload r = false) results →
  ∃ e, format_results results = inl e.
Proof.
  induction results as [|r rest IH]; intros Hbad.
  { by apply Exists_nil in Hbad. }
  simpl. destruct (format_result_payload r) as [Hyes Hno].
  destruct (has_payload r) eqn:Hr.
  - destruct (Hyes eq_refl) as (item & ->).
    apply Exists_cons in Hbad as [Hbad|Hbad]; [congruence|].
    destruct (IH Hbad) as (e & ->). by eexists.
  - destruct (Hno eq_refl) as (e & ->). by eexists.
Qed.

(** find turns a store answer that contains a point without payload into
    an error result, although no collaborator call failed. *)
Theorem find_fails_on_a_point_without_payload (a : FindArgs) (w w1 : World)
    (embedding : jsval) (results : list ScoredPoint) (s' : Store) :
  embed (f_query a) w = (inr embedding, w1) →
  store_search (store w1) COLLECTION_NAME (find_params embedding a) =
    (inr results, s') →
  Exists (fun r => has_payload r = false) results →
  isError (fst (qdrant_find a w)) = true ∧
  Forall (fun ev => is_failed_call ev = false) (new_events w (snd (qdrant_find a w))).
Proof.
  intros Hembed Hsearch Hbad.
  destruct (embed_run (f_query a) w) as [_ Htr].
  rewrite Hembed in Htr. simpl in Htr. specialize (Htr embedding eq_refl).
  destruct (format_results_fails_without_payload results Hbad) as (e & Hfmt).
  unfold qdrant_find, tool_try, items_result, find_items, bind.
  rewrite Hembed. unfold qdrantClient_search, qdrant. rewrite Hsearch.
  simpl. rewrite Hfmt. simpl. split; [done|].
  erewrite new_events_app; [|simpl; rewrite Htr, <- !app_assoc; reflexivity].
  unfold init_events. destruct (initialized w); by repeat constructor.
Qed.

End MoreTools.

(** ** More on the session table *)

Section MoreSessions.

Context `{McpSdk}.

(** [POST /messages] never changes the session table, and hands the frame
    to a transport, once, exactly when the sessionId is not empty and is a
    key of the table; in every other case no transport sees the frame. *)
Theorem post_reaches_only_an_open_session (sessionId : option string)
    (frame : jsval) (app : App) :
  transports (snd (post_messages sessionId frame app)) = transports app ∧
  connections (snd (post_messages sessionId frame app)) = connections app ∧
  handled_posts
    (drop (length (app_trace app)) (app_trace (snd (post_messages sessionId frame app)))) =
    match sessionId with
    | Some s =>
        if negb (String.eqb s "") && bool_decide (is_Some (transports app !! s))
        then [s] else []
    | None => []
    end.
Proof.
  unfold post_messages, transports_get, app_emit.
  destruct sessionId as [s|]; simpl.
  2: { repeat split. by rewrite <- app_assoc, drop_app_length. }
  destruct (String.eqb s ""); simpl.
  { repeat split. by rewrite <- app_assoc, drop_app_length. }
  destruct (transports app !! s) as [t|] eqn:Hlookup; simpl.
  - destruct (post_error (handlePostMessage t frame)),
      (sent (handlePostMessage t frame)); simpl;
      repeat split; by rewrite <- ?app_assoc, drop_app_length.
  - destruct (bool_decide (s ∈ Object_prototype_keys)); simpl;
      repeat split; by rewrite <- ?app_assoc, drop_app_length.
Qed.

(** A sessionId that is not empty, not a name inherited from
    [Object.prototype] and not a key of the table is answered 404: the
    handler logs the miss and does nothing else. *)
Theorem absent_session_is_not_found (sessionId : string) (frame : jsval) (app : App) :
  sessionId ≠ "" →
  sessionId ∉ Object_prototype_keys →
  transports app !! sessionId = None →
  post_messages (Some sessionId) frame app =
    (Some (mkResponse 404 "Session not found"),
     mkApp (transports app) (connections app)
       (app_trace app
        ++ [AppLog "Received POST request to /messages";
            AppError ("No active transport found for session ID: " ++ sessionId) None])).
Proof.
  intros Hne Hproto Hlookup. unfold post_messages, transports_get, app_emit; simpl.
  assert (String.eqb sessionId "" = false) as -> by (by apply String.eqb_neq).
  simpl. rewrite Hlookup, bool_decide_eq_false_2 by done.
  by rewrite <- app_assoc.
Qed.

(** [GET /mcp] registers the new transport under its sessionId, whether or
    not connecting it succeeds, and from then on a [POST] with that
    sessionId is handed to that transport and answered as the transport
    decides (or 500 if it throws before answering). *)
Theorem opened_session_receives_its_posts (frame : jsval) (app : App) :
  sessionId_of (new_SSEServerTransport (connections app)) ≠ "" →
  transports (snd (get_mcp app)) !! sessionId_of (new_SSEServerTransport (connections app)) =
    Some (new_SSEServerTransport (connections app)) ∧
  connections (snd (get_mcp app)) = S (connections app) ∧
  fst (post_messages (Some (sessionId_of (new_SSEServerTransport (connections app))))
         frame (snd (get_mcp app))) =
    response_of (handlePostMessage (new_SSEServerTransport (connections app)) frame) ∧
  handled_posts
    (drop (length (app_trace (snd (get_mcp app))))
       (app_trace
          (snd (post_messages
                  (Some (sessionId_of (new_SSEServerTransport (connections app))))
                  frame (snd (get_mcp app)))))) =
    [sessionId_of (new_SSEServerTransport (connections app))].
Proof.
  intros Hne.
  set (t := new_SSEServerTransport (connections app)) in *.
  set (sid := sessionId_of t) in *.
  assert (transports (snd (get_mcp app)) !! sid = Some t ∧
          connections (snd (get_mcp app)) = S (connections app)) as [Hreg Hconn].
  { unfold get_mcp, app_emit; simpl. fold t. fold sid.
    destruct (post_error (connect_and_start t)); [destruct (sent (connect_and_start t))|];
      simpl; by rewrite lookup_insert_eq. }
  split; [done|]. split; [done|].
  unfold post_messages, transports_get, app_emit; simpl.
  assert (String.eqb sid "" = false) as -> by (by apply String.eqb_neq).
  simpl. rewrite Hreg. unfold response_of.
  destruct (post_error (handlePostMessage t frame)),
    (sent (handlePostMessage t frame)); simpl;
    (split; [done|]); by rewrite <- ?app_assoc, drop_app_length.
Qed.

(** What the [onclose] handler that GET /mcp assigns to a new transport
    does when it is run: it deletes the entry of its own session and of no
    other, so that a POST carrying that sessionId afterwards is answered 404.
    The statement is about the handler; whether the transport still holds it
    after [server.connect], and so whether a closing transport runs it, is
    decided by the SDK. *)
Theorem onclose_handler_forgets_only_its_session (frame : jsval) (app : App) :
  sessionId_of (new_SSEServerTransport (connections app)) ≠ "" →
  sessionId_of (new_SSEServerTransport (connections app)) ∉ Object_prototype_keys →
  fst (post_messages (Some (sessionId_of (new_SSEServerTransport (connections app))))
         frame
         (transport_onclose (sessionId_of (new_SSEServerTransport (connections app)))
            (snd (get_mcp app)))) =
    Some (mkResponse 404 "Session not found") ∧
  ∀ k, k ≠ sessionId_of (new_SSEServerTransport (connections app)) →
       transports
         (transport_onclose (sessionId_of (new_SSEServerTransport (connections app)))
            (snd (get_mcp app))) !! k =
       transports app !! k.
Proof.
  intros Hne Hproto.
  set (t := new_SSEServerTransport (connections app)) in *.
  set (sid := sessionId_of t) in *.
  split.
  - by apply post_after_close.
  - intros k Hk. simpl. rewrite lookup_delete_ne by done.
    unfold get_mcp, app_emit; simpl. fold t. fold sid.
    destruct (post_error (connect_and_start t)); [destruct (sent (connect_and_start t))|];
      simpl; by rewrite lookup_insert_ne.
Qed.

Lemma close_one_table (sessionId : string) (transport : Transport) (app : App)
    (k : string) :
  transports app !! sessionId = Some transport →
  transports (close_one sessionId transport app) !! k =
    if decide (k = sessionId)
    then (if stays_after_shutdown (close transport) then Some transport else None)
    else transports app !! k.
Proof.
  intros Hlookup.
  unfold close_one, transport_onclose, app_delete, app_emit, stays_after_shutdown.
  destruct (decide (k = sessionId)) as [->|Hne];
    destruct (fires_onclose (close transport)),
      (close_error (close transport)) as [e|]; simpl;
    rewrite ?lookup_delete_eq, ?lookup_delete_ne by done; done.
Qed.

Lemma shutdown_loop_table (keys : list string) (app : App) (k : string) :
  NoDup keys →
  (∀ k', k' ∈ keys → is_Some (transports app !! k')) →
  transports (shutdown_loop keys app) !! k =
    match transports app !! k with
    | Some transport =>
        if bool_decide (k ∈ keys) && negb (stays_after_shutdown (close transport))
        then None else Some transport
    | None => None
    end.
Proof.
  revert app. induction keys as [|sid rest IH]; intros app Hnodup Hopen; simpl.
  { by destruct (transports app !! k). }
  apply NoDup_cons in Hnodup as [Hfresh Hnodup].
  destruct (Hopen sid) as [t Ht]; [by left|]. rewrite Ht.
  rewrite IH; [|done|].
  2: { intros k' Hk'. rewrite (close_one_table sid t app k' Ht).
       destruct (decide (k' = sid)) as [->|_]; [done|]. apply Hopen. by right. }
  rewrite (close_one_table sid t app k Ht).
  destruct (decide (k = sid)) as [->|Hne].
  - rewrite Ht. rewrite (bool_decide_eq_true_2 (sid ∈ sid :: rest)) by (by left).
    rewrite (bool_decide_eq_false_2 (sid ∈ rest)) by done.
    by destruct (stays_after_shutdown (close t)).
  - destruct (transports app !! k) as [t'|]; [|done].
    assert (bool_decide (k ∈ sid :: rest) = bool_decide (k ∈ rest)) as ->; [|done].
    apply bool_decide_ext. rewrite elem_of_cons.
    split; [by intros [?|?]|by right].
Qed.

(** After shutdown the table holds exactly the sessions whose [close()]
    threw without having called [onclose]; when no close throws, the table
    is empty. *)
Theorem shutdown_leaves_only_stuck_sessions (app : App) :
  (∀ k,
     transports (shutdown app) !! k =
       match transports app !! k with
       | Some transport =>
           if stays_after_shutdown (close transport) then Some transport else None
       | None => None
       end) ∧
  ((∀ k transport, transports app !! k = Some transport →
                   close_error (close transport) = None) →
   transports (shutdown app) = ∅).
Proof.
  assert (∀ k,
            transports (shutdown app) !! k =
              match transports app !! k with
              | Some transport =>
                  if stays_after_shutdown (close transport) then Some transport
                  else None
              | None => None
              end) as Htable.
  { intros k. unfold shutdown. simpl.
    rewrite shutdown_loop_table; [|apply NoDup_fst_map_to_list|].
    2: { intros k' Hk'. simpl. unfold for_in_keys in Hk'.
         apply list_elem_of_fmap in Hk' as ([k'' t] & -> & Hin).
         apply elem_of_map_to_list in Hin. by eexists. }
    simpl. destruct (transports app !! k) as [t|] eqn:Hlookup; [|done].
    rewrite bool_decide_eq_true_2.
    - by destruct (stays_after_shutdown (close t)).
    - unfold for_in_keys. apply list_elem_of_fmap. exists (k, t).
      split; [done|]. by apply elem_of_map_to_list. }
  split; [done|]. intros Hclean. apply map_eq. intros k.
  rewrite Htable, lookup_empty.
  destruct (transports app !! k) as [t|] eqn:Hlookup; [|done].
  unfold stays_after_shutdown. by rewrite (Hclean k t Hlookup).
Qed.

End MoreSessions.

(** ** These statements at work on the small instances *)

Lemma ensureCollection_creates_only_when_missing_witness :
  @store_getCollections DemoBoot.notes (boot_store DemoBoot.notes_boot) =
    (inr (collections_answer ["agent-ren3"; "archive"]), []) ∧
  admin_calls
    (boot_new DemoBoot.notes_boot
       (snd (@ensureCollection DemoBoot.notes DemoBoot.notes_startup
               DemoBoot.notes_boot))) =
    [admin_getCollections;
     admin_createCollection "notes"
       (VObj [("vectors", VObj [("size", VNum 384%Q); ("distance", VStr "Cosine")])])].
Proof.
  split; [reflexivity|].
  exact (proj1 (@ensureCollection_creates_only_when_missing DemoBoot.notes
                  DemoBoot.notes_startup DemoBoot.notes_boot
                  ["agent-ren3"; "archive"] [] eq_refl)).
Defined.

Lemma some_named_stops_at_first_match_witness :
  ("notes" ∉ ["agent-ren3"]) ∧
  some_named "notes"
    (map (fun n => VObj [("name", VStr n)]) ["agent-ren3"]
     ++ VObj [("name", VStr "notes")] :: [VNull]) = inr true.
Proof.
  assert ("notes" ∉ ["agent-ren3"]) as Hnin.
  { intros Hin. apply list_elem_of_In in Hin. simpl in Hin.
    destruct Hin as [Heq|[]]. discriminate Heq. }
  split; [exact Hnin|].
  exact (proj1 (some_named_stops_at_first_match "notes" ["agent-ren3"] [] [VNull] Hnin)).
Defined.

Lemma initialised_client_creates_no_model_witness :
  initialized Demo.world3 = true ∧
  Forall (fun ev => is_create_call ev = false)
    (@new_events Demo.env Demo.world3
       (snd (@call_tool Demo.env (Call_find DemoBoot.find_sky) Demo.world3))).
Proof.
  split; [reflexivity|].
  exact (proj1 (@initialised_client_creates_no_model Demo.env
                  (Call_find DemoBoot.find_sky) Demo.world3 eq_refl)).
Defined.

Lemma demo_world0_ok : @client_ok Demo.env Demo.world0.
Proof. intros Hinit. discriminate Hinit. Defined.

Lemma tools_keep_the_client_consistent_witness :
  @client_ok Demo.env Demo.world0 ∧
  @client_ok Demo.env (snd (@call_tool Demo.env (Call_store Demo.sky) Demo.world0)).
Proof.
  split; [exact demo_world0_ok|].
  exact (@tools_keep_the_client_consistent Demo.env (Call_store Demo.sky)
           Demo.world0 demo_world0_ok).
Defined.

Lemma embed_errors_come_from_the_model_witness :
  @client_ok Demo.env Demo.world0 ∧
  fst (@embed Demo.env "" Demo.world0) = inl (mkError "empty input") ∧
  ∃ call,
    is_embedding_call call = true ∧
    EvCall call (Some (mkError "empty input"))
      ∈ @new_events Demo.env Demo.world0 (snd (@embed Demo.env "" Demo.world0)).
Proof.
  split; [exact demo_world0_ok|]. split; [reflexivity|].
  exact (@embed_errors_come_from_the_model Demo.env "" Demo.world0
           (mkError "empty input") demo_world0_ok eq_refl).
Defined.

Lemma failed_model_creation_is_retried_witness :
  initialized DemoBoot.down_world = false ∧
  @create_model DemoBoot.down modelName = inl (mkError "no model") ∧
  initialized (snd (@embed DemoBoot.down "sky" DemoBoot.down_world)) = false.
Proof.
  split; [reflexivity|]. split; [reflexivity|].
  destruct (@failed_model_creation_is_retried DemoBoot.down "sky"
              DemoBoot.down_world (mkError "no model") eq_refl eq_refl)
    as (_ & Hinit & _).
  exact Hinit.
Defined.

Lemma hybrid_search_returns_a_prefix_of_the_answer_witness :
  fst (@hybrid_items Demo.env Demo.hybrid_no_keywords Demo.world3) =
    inr DemoBoot.hybrid_sky_items ∧
  (length DemoBoot.hybrid_sky_items ≤ 2)%nat.
Proof.
  assert (fst (@hybrid_items Demo.env Demo.hybrid_no_keywords Demo.world3) =
            inr DemoBoot.hybrid_sky_items) as Hitems by (vm_compute; reflexivity).
  split; [exact Hitems|].
  destruct (@hybrid_search_returns_a_prefix_of_the_answer Demo.env
              Demo.hybrid_no_keywords Demo.world3 _ Hitems)
    as (embedding & w1 & results & s' & n & _ & _ & _ & _ & _ & Hbound).
  apply Hbound. vm_compute. discriminate.
Defined.

Lemma find_returns_the_whole_answer_witness :
  fst (@find_items Demo.env DemoBoot.find_sky Demo.world3) =
    inr DemoBoot.find_sky_items ∧
  ∃ results : list ScoredPoint,
    format_results results = inr DemoBoot.find_sky_items ∧
    length DemoBoot.find_sky_items = length results.
Proof.
  assert (fst (@find_items Demo.env DemoBoot.find_sky Demo.world3) =
            inr DemoBoot.find_sky_items) as Hitems by (vm_compute; reflexivity).
  split; [exact Hitems|].
  destruct (@find_returns_the_whole_answer Demo.env DemoBoot.find_sky
              Demo.world3 _ Hitems)
    as (embedding & w1 & results & s' & _ & _ & _ & Hfmt & Hlen & _).
  exists results. split; [exact Hfmt|exact Hlen].
Defined.

Lemma filtered_search_without_query_embeds_nothing_witness :
  (fs_use_vector DemoBoot.by_filter = Some false ∨
   fs_query DemoBoot.by_filter = None ∨
   fs_query DemoBoot.by_filter = Some "") ∧
  initialized (snd (@qdrant_filtered_search Demo.env DemoBoot.by_filter Demo.world0)) =
    false.
Proof.
  assert (fs_use_vector DemoBoot.by_filter = Some false ∨
          fs_query DemoBoot.by_filter = None ∨
          fs_query DemoBoot.by_filter = Some "") as Hcond.
  { right. right. reflexivity. }
  split; [exact Hcond|].
  destruct (@filtered_search_without_query_embeds_nothing Demo.env
              DemoBoot.by_filter Demo.world0 Hcond) as (_ & Hinit & _).
  exact Hinit.
Defined.

Lemma filtered_search_with_query_embeds_it_witness :
  fs_use_vector DemoBoot.by_query ≠ Some false ∧
  fs_query DemoBoot.by_query = Some "sky" ∧
  "sky" ≠ "" ∧
  @embed Demo.env "sky" Demo.world3 =
    (inr (VArr [VNum 3%Q]), snd (@embed Demo.env "sky" Demo.world3)) ∧
  calls_of
    (@new_events Demo.env Demo.world3
       (snd (@qdrant_filtered_search Demo.env DemoBoot.by_query Demo.world3))) =
    [model_embed ["sky"];
     qdrant_search "agent-ren3"
       {| q_vector := Some (VArr [VNum 3%Q]);
          q_limit := 10;
          q_filter := Some (VObj []);
          q_with_payload := Some true;
          q_query_text := None;
          q_score_threshold := None;
          q_params := None |}].
Proof.
  assert (fs_use_vector DemoBoot.by_query ≠ Some false) as Huse by discriminate.
  assert ("sky" ≠ "") as Hne by discriminate.
  assert (@embed Demo.env "sky" Demo.world3 =
            (inr (VArr [VNum 3%Q]), snd (@embed Demo.env "sky" Demo.world3)))
    as Hembed by (vm_compute; reflexivity).
  split; [exact Huse|]. split; [reflexivity|]. split; [exact Hne|].
  split; [exact Hembed|].
  exact (@filtered_search_with_query_embeds_it Demo.env DemoBoot.by_query
           Demo.world3 _ "sky" _ Huse eq_refl Hne Hembed).
Defined.

Lemma embedding_failure_leaves_the_store_untouched_witness :
  Exists (fun ev => is_embedding_failure ev = true)
    (@new_events Demo.env Demo.world3
       (snd (@call_tool Demo.env (Call_store (mkStoreArgs "" None)) Demo.world3))) ∧
  store (snd (@call_tool Demo.env (Call_store (mkStoreArgs "" None)) Demo.world3)) =
    store Demo.world3.
Proof.
  assert (Exists (fun ev => is_embedding_failure ev = true)
            (@new_events Demo.env Demo.world3
               (snd (@call_tool Demo.env (Call_store (mkStoreArgs "" None))
                       Demo.world3)))) as Hex.
  { vm_compute. apply Exists_cons_hd. reflexivity. }
  split; [exact Hex|].
  destruct (@embedding_failure_leaves_the_store_untouched Demo.env _ _ Hex)
    as [(Hstore & _) _].
  exact Hstore.
Defined.

Lemma batch_store_draws_one_uuid_per_missing_id_witness :
  @embedBatch Demo.env (map bi_information (b_items Demo.batch_ab)) Demo.world0 =
    (inr [VArr [VNum 1%Q]; VArr [VNum 1%Q]; VArr [VNum 1%Q]],
     snd (@embedBatch Demo.env (map bi_information (b_items Demo.batch_ab))
            Demo.world0)) ∧
  uuid_draws (snd (@qdrant_batch_store Demo.env Demo.batch_ab Demo.world0)) = 2%nat.
Proof.
  assert (@embedBatch Demo.env (map bi_information (b_items Demo.batch_ab))
            Demo.world0 =
          (inr [VArr [VNum 1%Q]; VArr [VNum 1%Q]; VArr [VNum 1%Q]],
           snd (@embedBatch Demo.env (map bi_information (b_items Demo.batch_ab))
                  Demo.world0)))
    as Hembed by (vm_compute; reflexivity).
  split; [exact Hembed|].
  exact (proj1 (@batch_store_draws_one_uuid_per_missing_id Demo.env Demo.batch_ab
                  Demo.world0 _ _ Hembed)).
Defined.

Lemma demo_uuid_injective (m n : nat) :
  @randomUUID Demo.env m = @randomUUID Demo.env n → m = n.
Proof.
  simpl. intros Heq. injection Heq as Heq. exact (pretty_nat_inj m n Heq).
Defined.

Lemma batch_store_generated_ids_are_distinct_witness :
  (∀ m n, @randomUUID Demo.env m = @randomUUID Demo.env n → m = n) ∧
  @embedBatch Demo.env (map bi_information (b_items Demo.batch_ab)) Demo.world0 =
    (inr [VArr [VNum 1%Q]; VArr [VNum 1%Q]; VArr [VNum 1%Q]],
     snd (@embedBatch Demo.env (map bi_information (b_items Demo.batch_ab))
            Demo.world0)) ∧
  (0 < 2)%nat ∧
  b_items Demo.batch_ab !! 0%nat = Some (mkBatchItem "a" None (Some "")) ∧
  b_items Demo.batch_ab !! 2%nat = Some (mkBatchItem "b" None None) ∧
  truthy_string (bi_id (mkBatchItem "a" None (Some ""))) = false ∧
  truthy_string (bi_id (mkBatchItem "b" None None)) = false ∧
  ∃ (points : list Point) (p q : Point),
    points !! 0%nat = Some p ∧ points !! 2%nat = Some q ∧ pt_id p ≠ pt_id q.
Proof.
  assert (@embedBatch Demo.env (map bi_information (b_items Demo.batch_ab))
            Demo.world0 =
          (inr [VArr [VNum 1%Q]; VArr [VNum 1%Q]; VArr [VNum 1%Q]],
           snd (@embedBatch Demo.env (map bi_information (b_items Demo.batch_ab))
                  Demo.world0)))
    as Hembed by (vm_compute; reflexivity).
  assert (0 < 2)%nat as Hlt by lia.
  split; [exact demo_uuid_injective|]. split; [exact Hembed|].
  split; [exact Hlt|]. do 4 (split; [reflexivity|]).
  destruct (@batch_store_generated_ids_are_distinct Demo.env Demo.batch_ab
              Demo.world0 _ _ 0%nat 2%nat _ _ demo_uuid_injective Hembed Hlt
              eq_refl eq_refl eq_refl eq_refl)
    as (points & p & q & _ & Hp & Hq & Hne).
  exists points, p, q. split; [exact Hp|]. split; [exact Hq|exact Hne].
Defined.

Lemma batch_store_of_no_items_witness :
  b_items (mkBatchArgs [] (Some "archive")) = [] ∧
  @embedBatch Demo.env [] Demo.world0 =
    (inr [], snd (@embedBatch Demo.env [] Demo.world0)) ∧
  calls_of
    (@new_events Demo.env Demo.world0
       (snd (@qdrant_batch_store Demo.env (mkBatchArgs [] (Some "archive"))
               Demo.world0))) =
    [FastEmbed_create "sentence-transformers/all-MiniLM-L6-v2";
     model_embed []; qdrant_upsert "archive" []].
Proof.
  assert (@embedBatch Demo.env [] Demo.world0 =
            (inr [], snd (@embedBatch Demo.env [] Demo.world0)))
    as Hembed by (vm_compute; reflexivity).
  split; [reflexivity|]. split; [exact Hembed|].
  exact (proj1 (@batch_store_of_no_items Demo.env (mkBatchArgs [] (Some "archive"))
                  Demo.world0 _ _ eq_refl Hembed)).
Defined.

Lemma find_fails_on_a_point_without_payload_witness :
  @embed DemoBoot.bare "sky" DemoBoot.bare_world =
    (inr (VArr [VNum 3%Q]), snd (@embed DemoBoot.bare "sky" DemoBoot.bare_world)) ∧
  isError (fst (@qdrant_find DemoBoot.bare DemoBoot.find_sky DemoBoot.bare_world)) = true.
Proof.
  assert (@embed DemoBoot.bare "sky" DemoBoot.bare_world =
            (inr (VArr [VNum 3%Q]),
             snd (@embed DemoBoot.bare "sky" DemoBoot.bare_world)))
    as Hembed by (vm_compute; reflexivity).
  split; [exact Hembed|].
  refine (proj1 (@find_fails_on_a_point_without_payload DemoBoot.bare
                   DemoBoot.find_sky DemoBoot.bare_world _ _ _ tt Hembed eq_refl _)).
  apply Exists_cons_tl, Exists_cons_hd. reflexivity.
Defined.

Lemma absent_session_is_not_found_witness :
  "session-7" ≠ "" ∧
  ("session-7" ∉ Object_prototype_keys) ∧
  transports Demo.app3 !! "session-7" = None ∧
  fst (@post_messages Demo.sdk (Some "session-7") VNull Demo.app3) =
    Some (mkResponse 404 "Session not found").
Proof.
  assert ("session-7" ≠ "") as Hne by discriminate.
  assert ("session-7" ∉ Object_prototype_keys) as Hproto.
  { intros Hin. apply list_elem_of_In in Hin. vm_compute in Hin.
    repeat (destruct Hin as [Hin|Hin]; [discriminate Hin|]). exact Hin. }
  assert (transports Demo.app3 !! "session-7" = None) as Hnone
    by (vm_compute; reflexivity).
  split; [exact Hne|]. split; [exact Hproto|]. split; [exact Hnone|].
  rewrite (@absent_session_is_not_found Demo.sdk "session-7" VNull Demo.app3
             Hne Hproto Hnone).
  reflexivity.
Defined.

Lemma opened_session_receives_its_posts_witness :
  @sessionId_of Demo.sdk (@new_SSEServerTransport Demo.sdk (connections Demo.app0)) ≠ "" ∧
  fst (@post_messages Demo.sdk (Some "session-0") VNull (snd (@get_mcp Demo.sdk Demo.app0))) =
    Some (mkResponse 202 "Accepted").
Proof.
  assert (@sessionId_of Demo.sdk
            (@new_SSEServerTransport Demo.sdk (connections Demo.app0)) ≠ "")
    as Hne by discriminate.
  split; [exact Hne|].
  destruct (@opened_session_receives_its_posts Demo.sdk VNull Demo.app0 Hne)
    as (_ & _ & Hpost & _).
  exact Hpost.
Defined.

Lemma onclose_handler_forgets_only_its_session_witness :
  @sessionId_of Demo.sdk (@new_SSEServerTransport Demo.sdk (connections Demo.app0)) ≠ "" ∧
  (@sessionId_of Demo.sdk (@new_SSEServerTransport Demo.sdk (connections Demo.app0))
     ∉ Object_prototype_keys) ∧
  fst (@post_messages Demo.sdk (Some "session-0") VNull
         (@transport_onclose Demo.sdk "session-0" (snd (@get_mcp Demo.sdk Demo.app0)))) =
    Some (mkResponse 404 "Session not found").
Proof.
  assert (@sessionId_of Demo.sdk
            (@new_SSEServerTransport Demo.sdk (connections Demo.app0)) ≠ "")
    as Hne by discriminate.
  assert (@sessionId_of Demo.sdk
            (@new_SSEServerTransport Demo.sdk (connections Demo.app0))
            ∉ Object_prototype_keys) as Hproto.
  { intros Hin. apply list_elem_of_In in Hin. vm_compute in Hin.
    repeat (destruct Hin as [Hin|Hin]; [discriminate Hin|]). exact Hin. }
  split; [exact Hne|]. split; [exact Hproto|].
  exact (proj1 (@onclose_handler_forgets_only_its_session Demo.sdk VNull Demo.app0 Hne Hproto)).
Defined.
